(** * react-advanced-form: the form controller and its state patch reconciler

    A shallow embedding of [src/components/Form.jsx] (the [Form] class: the
    buffered event pipelines of its constructor, [promiseState],
    [applyStatePatch], [withRegisteredField] and the focus/change/blur
    handlers, [validateField], [validate], [submit]) and of the validator
    combinators [reduceValidationResults] / [mapToSingleResult].

    JavaScript values are plain data: primitives, arrays and objects with
    string keys.  An object is an association list in insertion order, which
    is the order [for-in] and [Object.values] enumerate it in. *)

From Stdlib Require Import List String Bool Arith Lia.
Import ListNotations.
Open Scope string_scope.
Open Scope list_scope.

Set Implicit Arguments.
Set Warnings "-register-all".

(* ===================================================================== *)
(** ** JavaScript values *)
(* ===================================================================== *)

Inductive value : Type :=
| VUndefined
| VNull
| VBool (b : bool)
| VNum (n : nat)
| VStr (s : string)
| VArr (items : list value)
| VObj (entries : list (string * value)).

(** A field path is an array of strings ([string[]]). *)
Definition FieldPath := list string.

(** The empty object literal [{}]. *)
Definition emptyObj : value := VObj [].

(** [x == null] *)
Definition isNil (v : value) : bool :=
  match v with
  | VUndefined | VNull => true
  | _ => false
  end.

(** JavaScript truthiness, as tested by [&&], [||], [!] and [if]. *)
Definition truthy (v : value) : bool :=
  match v with
  | VUndefined | VNull => false
  | VBool b => b
  | VNum n => negb (Nat.eqb n 0)
  | VStr s => negb (String.eqb s "")
  | VArr _ | VObj _ => true
  end.

(** Ramda's internal [_isObject]: the value is a plain object. *)
Definition isObject (v : value) : bool :=
  match v with
  | VObj _ => true
  | _ => false
  end.

(** [R.is(Object)]: objects and arrays are instances of [Object],
    primitives are not. *)
Definition is_Object (v : value) : bool :=
  match v with
  | VObj _ | VArr _ => true
  | _ => false
  end.

(** Own enumerable string-keyed properties.  Field path segments are field
    names; array indices and the built-in properties of primitives are never
    addressed by them, so only plain objects carry properties here. *)
Definition ownEntries (v : value) : list (string * value) :=
  match v with
  | VObj es => es
  | _ => []
  end.

Fixpoint lookup (k : string) (es : list (string * value)) : option value :=
  match es with
  | [] => None
  | (k', v) :: es' => if String.eqb k k' then Some v else lookup k es'
  end.

Definition hasKey (k : string) (es : list (string * value)) : bool :=
  match lookup k es with
  | Some _ => true
  | None => false
  end.

(** [R.has(k, obj)]: own property test. *)
Definition has (k : string) (obj : value) : bool := hasKey k (ownEntries obj).

(** Property read [obj[k]]; a missing property reads as [undefined]. *)
Definition get (k : string) (obj : value) : value :=
  match lookup k (ownEntries obj) with
  | Some v => v
  | None => VUndefined
  end.

(** [R.propEq(name, true)] and [R.propEq(name, false)]. *)
Definition propEqBool (name : string) (b : bool) (obj : value) : bool :=
  match get name obj with
  | VBool b' => Bool.eqb b b'
  | _ => false
  end.

(** Reads a [string[]] stored in a record (the [fieldPath] property). *)
Definition toPath (v : value) : FieldPath :=
  match v with
  | VArr items =>
      flat_map (fun x => match x with VStr s => [s] | _ => [] end) items
  | _ => []
  end.

Definition ofPath (p : FieldPath) : value := VArr (map VStr p).

(* --------------------------------------------------------------------- *)
(** *** Ramda *)
(* --------------------------------------------------------------------- *)

(** [R.path(p, obj)]: walks [p], giving [undefined] as soon as the value at
    hand is nil. *)
Fixpoint path (p : FieldPath) (obj : value) : value :=
  match p with
  | [] => obj
  | k :: p' => if isNil obj then VUndefined else path p' (get k obj)
  end.

(** [R.pathOr(d, p, obj)] *)
Definition pathOr (d : value) (p : FieldPath) (obj : value) : value :=
  let v := path p obj in
  if isNil v then d else v.

Fixpoint hasPathFrom (p : FieldPath) (val : value) : bool :=
  match p with
  | [] => true
  | k :: p' => if has k val then hasPathFrom p' (get k val) else false
  end.

(** [R.hasPath(p, obj)]: every segment is an own property; the empty path
    is never present. *)
Definition hasPath (p : FieldPath) (obj : value) : bool :=
  match p with
  | [] => false
  | _ => hasPathFrom p obj
  end.

Fixpoint setEntry (k : string) (v : value) (es : list (string * value))
  : list (string * value) :=
  match es with
  | [] => [(k, v)]
  | (k', v') :: es' =>
      if String.eqb k k' then (k, v) :: es' else (k', v') :: setEntry k v es'
  end.

(** [R.assoc(k, v, obj)]: a shallow copy of [obj] with [k] set to [v]. *)
Definition assoc (k : string) (v : value) (obj : value) : value :=
  VObj (setEntry k v (ownEntries obj)).

(** [R.assocPath(p, v, obj)]: intermediate objects are created where the
    path does not exist yet. *)
Fixpoint assocPath (p : FieldPath) (v : value) (obj : value) : value :=
  match p with
  | [] => v
  | [k] => assoc k v obj
  | k :: p' =>
      let nextObj := if negb (isNil obj) && has k obj then get k obj
                     else emptyObj in
      assoc k (assocPath p' v nextObj) obj
  end.

(** [R.mergeDeepWithKey(fn, lObj, rObj)], through [R.mergeWithKey]: the keys
    of [lObj] first, a key present on both sides merged recursively when both
    values are plain objects and by [fn] otherwise; then the keys only
    [rObj] has. *)
Fixpoint mergeDeepWithKey (fn : string -> value -> value -> value)
    (lObj rObj : value) {struct lObj} : value :=
  match lObj with
  | VObj les =>
      VObj (map (fun kv : string * value =>
                   let (k, lVal) := kv in
                   (k, match lookup k (ownEntries rObj) with
                       | Some rVal =>
                           if isObject lVal && isObject rVal
                           then mergeDeepWithKey fn lVal rVal
                           else fn k lVal rVal
                       | None => lVal
                       end)) les
            ++ filter (fun kv => negb (hasKey (fst kv) les)) (ownEntries rObj))
  | _ => VObj (ownEntries rObj)
  end.

(** The value [mergeDeepWithKey] gives a key [k] of the left object that
    holds [lVal]. *)
Definition mergedValue (fn : string -> value -> value -> value)
    (rObj : value) (k : string) (lVal : value) : value :=
  match lookup k (ownEntries rObj) with
  | Some rVal =>
      if isObject lVal && isObject rVal
      then mergeDeepWithKey fn lVal rVal
      else fn k lVal rVal
  | None => lVal
  end.

(** [R.mergeDeepLeft(l, r)]: on a conflict the value of [l] wins. *)
Definition mergeDeepLeft (lObj rObj : value) : value :=
  mergeDeepWithKey (fun _ lVal _ => lVal) lObj rObj.

(** [R.mergeDeepRight(l, r)]: on a conflict the value of [r] wins. *)
Definition mergeDeepRight (lObj rObj : value) : value :=
  mergeDeepWithKey (fun _ _ rVal => rVal) lObj rObj.

(** Modelled from the spec: [utils/stitchWith], which [Form.jsx] imports and
    which is not part of this development, builds an object from a list "by
    assigning each" entry "at its" key path: the reducer asks [getKeyPath]
    for the path, [getValue] (given the entry, its path and the object
    stitched so far) for the value, and assigns it there. *)
Definition stitchWith {A : Type} (getKeyPath : A -> FieldPath)
    (getValue : A -> FieldPath -> value -> value) (list : list A) : value :=
  fold_left (fun acc entry =>
               let keyPath := getKeyPath entry in
               assocPath keyPath (getValue entry keyPath acc) acc)
            list emptyObj.

(* ===================================================================== *)
(** ** The form: state, patches, effects *)
(* ===================================================================== *)

(** What a thrown exception or a rejected promise carries. *)
Inductive error : Type :=
| InvariantViolation (message : string)
| HostError (code : nat).

(** The closures [Form.jsx] attaches to the patches it emits, and caller
    supplied ones.  A closure is identified by where it is created and by
    what it captures. *)
Inductive Callback : Type :=
| FocusCallback (fieldProps : value)
| ChangeCallback (prevValue nextValue : value)
| BlurCallback
| CustomCallback (id : nat).

(** A state patch [[fieldPath, stateChunk, callback]]; the third component
    is optional. *)
Record StatePatch : Type := mkPatch {
  fieldPath : FieldPath;
  stateChunk : value;
  callback : option Callback
}.

(** [this.state] (the merged rules, which no operation below reads, are
    left out). *)
Record State : Type := mkState {
  fields : value;
  dirty : bool
}.

(** The argument of [setState]: a partial state. *)
Record StateUpdate : Type := mkUpdate {
  nextFieldsOf : option value;
  nextDirtyOf : option bool
}.

Definition fieldsUpdate (nextFields : value) : StateUpdate :=
  {| nextFieldsOf := Some nextFields; nextDirtyOf := None |}.

Definition dirtyUpdate (d : bool) : StateUpdate :=
  {| nextFieldsOf := None; nextDirtyOf := Some d |}.

Definition mergeState (s : State) (u : StateUpdate) : State :=
  {| fields := match nextFieldsOf u with Some f => f | None => fields s end;
     dirty := match nextDirtyOf u with Some d => d | None => dirty s end |}.

(** What the action handed to [submit] returns: a plain value, or a
    thenable that settles one way or the other. *)
Inductive actionResult : Type :=
| Plain (v : value)
| Fulfils (res : value)
| Rejects (res : value).

(** [this.props]: the action and the lifecycle hooks that the operations
    below dispatch.  A hook is present or absent; what it does is outside
    the form. *)
Record Props : Type := mkProps {
  action : option (value -> value -> actionResult);
  onFirstChange : bool;
  onSerialize : option (value -> value -> value);
  onInvalid : bool;
  onSubmitStart : bool;
  onSubmitted : bool;
  onSubmitFailed : bool;
  onSubmitEnd : bool
}.

(** Calls that leave the form, in the order they are made. *)
Inductive effect : Type :=
| Invoked (cb : Callback) (fieldState nextFields : value)
| CalledOnFirstChange (fieldProps fields : value)
| CalledOnInvalid (invalidFields : list value) (fields : value)
| CalledOnSubmitStart (serialized fields : value)
| CalledAction (serialized fields : value)
| CalledOnSubmitted (serialized fields res : value)
| CalledOnSubmitFailed (serialized fields res : value)
| CalledOnSubmitEnd (serialized fields res : value).

(** The form instance: its state, the [applyStatePatch] events emitted on
    its event emitter and not delivered yet, and the calls made so far. *)
Record Form : Type := mkForm {
  state : State;
  emitted : list StatePatch;
  effects : list effect
}.

(** *** Computations on a form

    A method either returns or throws; for an [async] method or a promise
    chain, returning is fulfilment and throwing is rejection.  Both leave a
    form behind. *)
Inductive outcome (A : Type) : Type :=
| Returned (a : A)
| Thrown (e : error).

Arguments Returned {A} a.
Arguments Thrown {A} e.

Definition M (A : Type) : Type := Form -> outcome A * Form.

Definition ret {A} (a : A) : M A := fun f => (Returned a, f).

Definition throw {A} (e : error) : M A := fun f => (Thrown e, f).

Definition bind {A B} (m : M A) (k : A -> M B) : M B :=
  fun f =>
    match m f with
    | (Returned a, f') => k a f'
    | (Thrown e, f') => (Thrown e, f')
    end.

Notation "x <- m ;; k" := (bind m (fun x => k))
  (at level 61, m at next level, right associativity).
Notation "m ;;; k" := (bind m (fun _ => k))
  (at level 61, right associativity).

(** A promise nobody awaits or catches: its rejection is lost. *)
Definition detached {A} (m : M A) : M unit :=
  fun f => (Returned tt, snd (m f)).

Definition getState : M State := fun f => (Returned (state f), f).

Definition record (e : effect) : M unit :=
  fun f => (Returned tt,
            {| state := state f; emitted := emitted f;
               effects := effects f ++ [e] |}).

(** [this.emit('applyStatePatch', fieldPath, stateChunk, callback)] *)
Definition emitStatePatch (p : StatePatch) : M unit :=
  fun f => (Returned tt,
            {| state := state f; emitted := emitted f ++ [p];
               effects := effects f |}).

(** [invariant(condition, message)] *)
Definition invariant (condition : bool) (message : string) : M unit :=
  if condition then ret tt else throw (InvariantViolation message).

Fixpoint forEach {A} (fn : A -> M unit) (l : list A) : M unit :=
  match l with
  | [] => ret tt
  | x :: l' => fn x ;;; forEach fn l'
  end.

Fixpoint mapM {A B} (fn : A -> M B) (l : list A) : M (list B) :=
  match l with
  | [] => ret []
  | x :: l' => y <- fn x ;; ys <- mapM fn l' ;; ret (y :: ys)
  end.

(* ===================================================================== *)
(** ** The state patch reconciler *)
(* ===================================================================== *)

(** The two inner stages of the [R.compose] pipeline of [applyStatePatch]:
    drop the patches whose field is no longer in [prevFields], then stitch
    the remaining ones into one object, a later chunk merged over what is
    already stitched at its path. *)
Definition stitchPatches (prevFields : value) (statePatches : list StatePatch)
  : value :=
  stitchWith fieldPath
    (fun patch keyPath existingChunks =>
       mergeDeepLeft (stateChunk patch)
                     (pathOr emptyObj keyPath existingChunks))
    (filter (fun patch => hasPath (fieldPath patch) prevFields) statePatches).

(** The whole pipeline: the [nextFields] of [applyStatePatch]. *)
Definition composeNextFields (prevFields : value)
    (statePatches : list StatePatch) : value :=
  mergeDeepRight prevFields (stitchPatches prevFields statePatches).

Section Controller.

(** The host's [setState]: for a state and an update, the exception it
    throws, if any.  A call that throws commits nothing. *)
Variable setStateThrows : State -> StateUpdate -> option error.

(** What running a patch callback does to [this.state] (a callback is
    free to call back into the form).  Callbacks return normally. *)
Variable callbackEffect : Callback -> value -> value -> State -> State.

Definition setState (nextState : StateUpdate) : M unit :=
  fun f =>
    match setStateThrows (state f) nextState with
    | Some e => (Thrown e, f)
    | None => (Returned tt,
               {| state := mergeState (state f) nextState;
                  emitted := emitted f; effects := effects f |})
    end.

(** [promiseState]: resolves with [this.state] once the update is
    applied, rejects with what [setState] throws. *)
Definition promiseState (nextState : StateUpdate) : M State :=
  fun f =>
    match setState nextState f with
    | (Returned _, f') => (Returned (state f'), f')
    | (Thrown e, f') => (Thrown e, f')
    end.

(** [callback(fieldState, nextFields)] *)
Definition invoke (cb : Callback) (fieldState nextFields : value) : M unit :=
  fun f =>
    (Returned tt,
     {| state := callbackEffect cb fieldState nextFields (state f);
        emitted := emitted f;
        effects := effects f ++ [Invoked cb fieldState nextFields] |}).

Definition applyStatePatch (statePatches : list StatePatch) : M unit :=
  prevState <- getState ;;
  let prevFields := fields prevState in
  let nextFields := composeNextFields prevFields statePatches in
  nextState <- promiseState (fieldsUpdate nextFields) ;;
  let nextFields := fields nextState in
  forEach (fun patch =>
             match callback patch with
             | Some cb =>
                 invoke cb (path (fieldPath patch) nextFields) nextFields
             | None => ret tt
             end)
          statePatches.

(* ------------------------------------------------------------------- *)
(** *** Field events *)
(* ------------------------------------------------------------------- *)

Variable props : Props.

(** Modelled from the spec: [utils/dispatch] is not part of this
    development; a lifecycle hook is optional configuration and is "invoked
    with a context object" when it is there.  The call is recorded. *)
Definition dispatch (hook : bool) (call : effect) : M unit :=
  if hook then record call else ret tt.

(** Modelled from the spec: [recordUtils.setFocused] is one of the "pure
    transformation functions" of the record model ("set touched/focused");
    it sets the [focused] property of the record it is given. *)
Definition setFocused (focused : bool) (fieldRecord : value) : value :=
  assoc "focused" (VBool focused) fieldRecord.

(** The payload of [fieldFocus], [fieldChange] and [fieldBlur]. *)
Record FieldEvent : Type := mkFieldEvent {
  event : value;
  fieldProps : value;
  prevValue : value;
  nextValue : value
}.

Definition fieldPathOf (fieldRecord : value) : FieldPath :=
  toPath (get "fieldPath" fieldRecord).

(** [utils/handlers] is not part of this development; its two functions
    are parameters: what [handleFieldChange] passes to [onUpdateValue] and
    what it resolves with, and what [handleFieldBlur] resolves with. *)
Variable changeHandler : FieldEvent -> value -> list value * value.
Variable blurHandler : FieldEvent -> value -> value.

Definition withRegisteredField (func : FieldEvent -> M unit)
    (args : FieldEvent) : M unit :=
  s <- getState ;;
  let includesField := path (fieldPathOf (fieldProps args)) (fields s) in
  if truthy includesField then func args else ret tt.

Definition handleFirstChange (args : FieldEvent) : M State :=
  s <- getState ;;
  dispatch (onFirstChange props)
           (CalledOnFirstChange (fieldProps args) (fields s)) ;;;
  promiseState (dirtyUpdate true).

Definition handleFieldFocus : FieldEvent -> M unit :=
  withRegisteredField (fun args =>
    let nextFieldPatch := setFocused true emptyObj in
    emitStatePatch
      {| fieldPath := fieldPathOf (fieldProps args);
         stateChunk := nextFieldPatch;
         callback := Some (FocusCallback (fieldProps args)) |}).

Definition handleFieldChange : FieldEvent -> M unit :=
  withRegisteredField (fun args =>
    let fieldPath := fieldPathOf (fieldProps args) in
    s <- getState ;;
    let (intermediatePatches, fieldStatePatch) :=
      changeHandler args (fields s) in
    forEach (fun intermediateStatePatch =>
               detached (applyStatePatch
                 [ {| fieldPath := fieldPath;
                      stateChunk := intermediateStatePatch;
                      callback := Some (ChangeCallback (prevValue args)
                                                       (nextValue args)) |} ]))
            intermediatePatches ;;;
    (if truthy fieldStatePatch
     then emitStatePatch {| fieldPath := fieldPath;
                            stateChunk := fieldStatePatch;
                            callback := None |}
     else ret tt) ;;;
    if negb (dirty s) then detached (handleFirstChange args) else ret tt).


(* ------------------------------------------------------------------- *)
(** *** Validation *)
(* ------------------------------------------------------------------- *)

(** The argument of [validateField], with the defaults of its
    destructuring made explicit by [validateFieldOf]. *)
Record ValidateFieldArgs : Type := mkValidateFieldArgs {
  chain : option value;
  force : bool;
  explicitFieldProps : value;
  explicitFields : option value;
  forceProps : bool;
  shouldUpdateFields : bool
}.

(** [{ fieldProps }] *)
Definition validateFieldOf (fieldProps : value) : ValidateFieldArgs :=
  {| chain := None; force := false; explicitFieldProps := fieldProps;
     explicitFields := None; forceProps := false;
     shouldUpdateFields := true |}.

(** [utils/handlers/validateField] is not part of this development; it is
    a parameter: the state patch it resolves with, for a chain, the force
    flag, the field and the fields. *)
Variable validateHandler : option value -> bool -> value -> value -> value.

Definition validateField (args : ValidateFieldArgs) : M value :=
  s <- getState ;;
  let fields := match explicitFields args with
                | Some explicit => explicit
                | None => fields s
                end in
  let fieldProps := if forceProps args then explicitFieldProps args
                    else path (fieldPathOf (explicitFieldProps args)) fields in
  let fieldProps := if truthy fieldProps then fieldProps
                    else explicitFieldProps args in
  let fieldStatePatch :=
    validateHandler (chain args) (force args) fieldProps fields in
  (if shouldUpdateFields args
   then emitStatePatch {| fieldPath := fieldPathOf fieldProps;
                          stateChunk := fieldStatePatch;
                          callback := None |}
   else ret tt) ;;;
  ret (mergeDeepLeft fieldStatePatch fieldProps).

(** Modelled from the spec: [utils/getLeavesWhich] is not part of this
    development; it is a "filter returning matching leaves only": the
    values of the tree are visited in order, one that matches is a leaf,
    and one that does not is searched in turn. *)
Fixpoint getLeavesWhich (predicate : value -> bool) (obj : value)
  : list value :=
  match obj with
  | VObj es =>
      flat_map (fun kv : string * value =>
                  let (_, v) := kv in
                  if predicate v then [v] else getLeavesWhich predicate v)
               es
  | _ => []
  end.

Definition validate (predicate : value -> bool) : M bool :=
  s <- getState ;;
  let flattenedFields :=
    getLeavesWhich (fun v => is_Object v && has "fieldPath" v && predicate v)
                   (fields s) in
  validatedFields <-
    mapM (fun fieldProps => validateField (validateFieldOf fieldProps))
         flattenedFields ;;
  let isFormValid := forallb (propEqBool "expected" true) validatedFields in
  (if negb isFormValid && onInvalid props
   then
     s' <- getState ;;
     let invalidFields :=
       filter (propEqBool "expected" false) validatedFields in
     dispatch (onInvalid props) (CalledOnInvalid invalidFields (fields s'))
   else ret tt) ;;;
  ret isFormValid.

(* ------------------------------------------------------------------- *)
(** *** Submission *)
(* ------------------------------------------------------------------- *)

(** [fieldUtils.serializeFields] is not part of this development; it is a
    parameter. *)
Variable serializeFields : value -> value.

Definition serialize : M value :=
  s <- getState ;;
  let serialized := serializeFields (fields s) in
  ret (match onSerialize props with
       | Some hook => hook serialized (fields s)
       | None => serialized
       end).

(** [pendingSubmit && typeof pendingSubmit.then === 'function'] *)
Definition isThenable (pendingSubmit : actionResult) : bool :=
  match pendingSubmit with
  | Plain _ => false
  | Fulfils _ | Rejects _ => true
  end.

(** [submit(event)]; [event.preventDefault()] does not touch the form.
    The method is [async]: what it throws rejects the promise it returns. *)
Definition submit : M value :=
  match action props with
  | None =>
      throw (InvariantViolation
        (String.append
           "Cannot submit the form without `action` prop specified explicitly. "
           "Expected a function which returns Promise, but received: %s."))
  | Some action =>
      isFormValid <- validate (fun _ => true) ;;
      if negb isFormValid then ret VUndefined
      else
        s <- getState ;;
        let fields := fields s in
        serialized <- serialize ;;
        dispatch (onSubmitStart props)
                 (CalledOnSubmitStart serialized fields) ;;;
        record (CalledAction serialized fields) ;;;
        let pendingSubmit := action serialized fields in
        invariant (isThenable pendingSubmit)
          (String.append
             "Cannot submit the form. Expected `action` prop of the Form to return "
             (String.append
                "an instance of Promise, but got: %s. Make sure you return a Promise "
                "from your action handler.")) ;;;
        match pendingSubmit with
        | Fulfils res =>
            dispatch (onSubmitted props)
                     (CalledOnSubmitted serialized fields res) ;;;
            dispatch (onSubmitEnd props)
                     (CalledOnSubmitEnd serialized fields res) ;;;
            ret VUndefined
        | Rejects res =>
            dispatch (onSubmitFailed props)
                     (CalledOnSubmitFailed serialized fields res) ;;;
            dispatch (onSubmitEnd props)
                     (CalledOnSubmitEnd serialized fields res) ;;;
            ret VUndefined
        | Plain _ => ret VUndefined
        end
  end.

End Controller.

(* ===================================================================== *)
(** ** The buffered event pipelines of the constructor *)
(* ===================================================================== *)

(** An emission on the event emitter: the time it happens at, in
    milliseconds since the observables were subscribed, and its payload.
    A source lists its emissions in arrival order. *)
Record Emission (A : Type) : Type := mkEmission {
  time : nat;
  payload : A
}.

Arguments mkEmission {A} time payload.

(** The emissions that fall into the [k]-th window of length
    [bufferTimeSpan], in arrival order. *)
Definition window {A} (bufferTimeSpan k : nat) (source : list (Emission A))
  : list A :=
  map (@payload A)
      (filter (fun e => Nat.leb (k * bufferTimeSpan) (time e)
                        && Nat.ltb (time e) ((k + 1) * bufferTimeSpan))
              source).

(** rxjs [bufferTime(bufferTimeSpan)], observed for [windows] windows: one
    buffer is emitted each time a window closes, empty or not. *)
Definition bufferTime {A} (bufferTimeSpan windows : nat)
    (source : list (Emission A)) : list (list A) :=
  map (fun k => window bufferTimeSpan k source) (seq 0 windows).

(** [R.isEmpty] on arrays. *)
Definition isEmpty {A} (l : list A) : bool :=
  match l with
  | [] => true
  | _ => false
  end.

(** What the three buffered subscriptions call, and with what. *)
Inductive HandlerCall : Type :=
| RegisterField (pendingField : value)
| UnregisterFields (fieldsList : list value)
| ApplyStatePatch (statePatches : list StatePatch).




(** [fromEvent(eventEmitter, 'applyStatePatch')
      .pipe(bufferTime(50), filter(R.complement(R.isEmpty)))
      .subscribe(this.applyStatePatch)] *)
Definition applyStatePatchCalls (windows : nat)
    (source : list (Emission StatePatch)) : list HandlerCall :=
  map ApplyStatePatch
      (filter (fun buffer => negb (isEmpty buffer))
              (bufferTime 50 windows source)).


(* ===================================================================== *)
(** ** Combining validation results *)
(* ===================================================================== *)

Record TValidationResult : Type := mkValidationResult {
  expected : bool;
  rejectedRules : list string
}.

(** The reducer of [reduceValidationResults]. *)
Definition combine (acc result : TValidationResult) : TValidationResult :=
  {| expected := if expected acc then expected result else expected acc;
     rejectedRules := rejectedRules acc ++ rejectedRules result |}.

Definition reduceValidationResults (initialAcc : TValidationResult)
    (results : list TValidationResult) : TValidationResult :=
  fold_left combine results initialAcc.

(** A validator returns one result or an array of results. *)
Inductive ValidatorResult : Type :=
| Single (result : TValidationResult)
| Several (results : list TValidationResult).

(** [Array.isArray(validatorResult) ? validatorResult : [validatorResult]] *)
Definition validatorResultArr (validatorResult : ValidatorResult)
  : list TValidationResult :=
  match validatorResult with
  | Single result => [result]
  | Several results => results
  end.

Definition TValidatorFunc := value -> ValidatorResult.

Definition mapToSingleResult (validators : list TValidatorFunc) (args : value)
  : TValidationResult :=
  fold_left (fun acc validator =>
               reduceValidationResults acc
                 (validatorResultArr (validator args)))
            validators
            {| expected := true; rejectedRules := [] |}.


(* ===================================================================== *)
(** ** Reference descriptions and sample data *)
(* ===================================================================== *)

(** The callback calls the reconciler is expected to make for a batch once
    [nextFields] is committed: one per patch that carries a callback, in
    arrival order, each given the record at the patch's path and the whole
    committed tree. *)
Definition callbackCalls (nextFields : value) (statePatches : list StatePatch)
  : list effect :=
  flat_map (fun patch =>
              match callback patch with
              | Some cb =>
                  [Invoked cb (path (fieldPath patch) nextFields) nextFields]
              | None => []
              end)
           statePatches.


(** The calls a computation makes when run on a form. *)
Definition performed {A} (m : M A) (f : Form) : list effect :=
  skipn (List.length (effects f)) (effects (snd (m f))).

(** What [validateField({ fieldProps })] works out for a field, given the
    committed tree: the record it validates (the one in the tree when there
    is one), the patch it emits, and the record it resolves with. *)
Section ValidatedField.

Variable validateHandler : option value -> bool -> value -> value -> value.
Variable fields : value.

Definition recordToValidate (fieldProps : value) : value :=
  let registered := path (fieldPathOf fieldProps) fields in
  if truthy registered then registered else fieldProps.

Definition validationPatch (fieldProps : value) : StatePatch :=
  {| fieldPath := fieldPathOf (recordToValidate fieldProps);
     stateChunk := validateHandler None false (recordToValidate fieldProps)
                                   fields;
     callback := None |}.

Definition validatedField (fieldProps : value) : value :=
  mergeDeepLeft
    (validateHandler None false (recordToValidate fieldProps) fields)
    (recordToValidate fieldProps).

End ValidatedField.

(** The fields [validate(predicate)] validates: the leaves of the tree that
    are objects, have a [fieldPath] and match the predicate. *)
Definition fieldsToValidate (predicate : value -> bool) (f : Form)
  : list value :=
  getLeavesWhich (fun v => is_Object v && has "fieldPath" v && predicate v)
                 (fields (state f)).

(** What [serialize()] returns for a tree. *)
Definition serializedOf (props : Props) (serializeFields : value -> value)
    (fields : value) : value :=
  match onSerialize props with
  | Some hook => hook (serializeFields fields) fields
  | None => serializeFields fields
  end.

Definition callsAction (call : effect) : bool :=
  match call with
  | CalledAction _ _ => true
  | _ => false
  end.

Definition callsOnSubmitStart (call : effect) : bool :=
  match call with
  | CalledOnSubmitStart _ _ => true
  | _ => false
  end.


(** The reducer [stitchWith] runs for the patches of [applyStatePatch]. *)
Definition stitchStep (acc : value) (patch : StatePatch) : value :=
  assocPath (fieldPath patch)
    (mergeDeepLeft (stateChunk patch) (pathOr emptyObj (fieldPath patch) acc))
    acc.

(** A leaf of the tree as [getLeavesWhich] finds it: [v] sits at the path
    [p], it matches, and nothing on the way to it does. *)
Fixpoint leafAt (predicate : value -> bool) (p : FieldPath) (obj v : value)
  : Prop :=
  match p with
  | [] => False
  | k :: p' =>
      exists x,
        lookup k (ownEntries obj) = Some x
        /\ if predicate x then p' = [] /\ v = x
           else leafAt predicate p' x v
  end.


Module Sample.

Definition fieldA : value :=
  VObj [("fieldPath", ofPath ["a"]); ("value", VStr "x")].

Definition fieldB : value :=
  VObj [("fieldPath", ofPath ["b"]); ("value", VStr "");
        ("required", VBool true)].

(** Two registered fields, [a] and [b]. *)
Definition tree : value := VObj [("a", fieldA); ("b", fieldB)].

Definition form : Form :=
  {| state := {| fields := tree; dirty := false |};
     emitted := []; effects := [] |}.

(** A host that applies every update, and one that refuses every update. *)
Definition accepts : State -> StateUpdate -> option error :=
  fun _ _ => None.

Definition refuses : State -> StateUpdate -> option error :=
  fun _ _ => Some (HostError 1).

(** Callbacks that leave the state alone, and callbacks that wipe the
    field tree. *)
Definition inert : Callback -> value -> value -> State -> State :=
  fun _ _ _ s => s.


(** A patch for a field that is not in [tree]. *)
Definition stalePatch : StatePatch :=
  {| fieldPath := ["gone"];
     stateChunk := VObj [("focused", VBool true)];
     callback :=
       Some (FocusCallback (VObj [("fieldPath", ofPath ["gone"])])) |}.

Definition touchA : StatePatch :=
  {| fieldPath := ["a"];
     stateChunk := VObj [("touched", VBool true); ("value", VStr "y")];
     callback := Some (CustomCallback 1) |}.

Definition focusA : StatePatch :=
  {| fieldPath := ["a"];
     stateChunk := VObj [("focused", VBool true); ("value", VStr "z")];
     callback := Some (CustomCallback 2) |}.

Definition blurB : StatePatch :=
  {| fieldPath := ["b"];
     stateChunk := VObj [("focused", VBool false)];
     callback := None |}.



(** The payloads of two [fieldRegister] events, and the events emitted
    10 ms apart in the third window. *)
Definition registerA : value :=
  VObj [("fieldProps", fieldA); ("fieldOptions", emptyObj)].




(** A validator for the [required] rule: a required field with an empty
    value is rejected. *)
Definition requiredRule (chain : option value) (force : bool)
    (fieldProps fields : value) : value :=
  match get "required" fieldProps, get "value" fieldProps with
  | VBool true, VStr "" =>
      VObj [("validated", VBool true); ("expected", VBool false);
            ("errors", VArr [VStr "Please provide the required field"])]
  | _, _ => VObj [("validated", VBool true); ("expected", VBool true)]
  end.

Definition serializeValues (fields : value) : value :=
  VObj (map (fun kv : string * value => (fst kv, get "value" (snd kv)))
            (ownEntries fields)).


Definition dutiful : value -> value -> actionResult :=
  fun serialized _ => Fulfils serialized.

Definition propsWith (action : value -> value -> actionResult) : Props :=
  {| action := Some action; onFirstChange := true; onSerialize := None;
     onInvalid := true; onSubmitStart := true; onSubmitted := true;
     onSubmitFailed := true; onSubmitEnd := true |}.

(** The sample form with [b] filled in: every field is valid. *)
Definition filledB : value :=
  VObj [("fieldPath", ofPath ["b"]); ("value", VStr "filled");
        ("required", VBool true)].

Definition validForm : Form :=
  {| state := {| fields := VObj [("a", fieldA); ("b", filledB)];
                 dirty := false |};
     emitted := []; effects := [] |}.


Definition eventOfA : FieldEvent :=
  {| event := VUndefined; fieldProps := fieldA;
     prevValue := VStr "x"; nextValue := VStr "xy" |}.

Definition onChange (args : FieldEvent) (fields : value)
  : list value * value :=
  ([VObj [("value", nextValue args)]], VObj [("validated", VBool false)]).


End Sample.

(* ===================================================================== *)
(** ** Field registration *)
(* ===================================================================== *)

(** The [fieldOptions] of a [fieldRegister] event. *)
Record FieldOptions : Type := mkFieldOptions {
  allowMultiple : bool;
  beforeRegister : value -> value -> value;
  shouldValidateOnMount : bool
}.

(** The payload of [fieldRegister]: [{ fieldProps, fieldOptions }]. *)
Record Registration : Type := mkRegistration {
  pristineFieldProps : value;
  fieldOptions : FieldOptions
}.

Section Registering.

Variable setStateThrows : State -> StateUpdate -> option error.
Variable validateHandler : option value -> bool -> value -> value -> value.

(** [registerField].  The observers and subscriptions it sets up through
    [rxUtils], and the [...registered] event it emits, live outside
    [this.state] and the [applyStatePatch] events; they are not tracked.
    The validation on mount is started and not awaited. *)
Definition registerField (registration : Registration) : M unit :=
  let pristineFieldProps := pristineFieldProps registration in
  let fieldOptions := fieldOptions registration in
  s <- getState ;;
  let fields := fields s in
  let fieldPath := fieldPathOf pristineFieldProps in
  let fieldAlreadyExists := truthy (path fieldPath fields) in
  invariant (negb (fieldAlreadyExists && negb (allowMultiple fieldOptions)))
    (String.append
       "Cannot register field `%s`: the field with "
       (String.append
          "the provided name is already registered. Make sure the fields on "
          (String.append
             "the same level of `Form` "
             "or `Field.Group` have unique names."))) ;;;
  let fieldProps := beforeRegister fieldOptions pristineFieldProps fields in
  if negb (truthy fieldProps) then ret tt
  else
    let nextFields := assocPath fieldPath fieldProps fields in
    setState setStateThrows (fieldsUpdate nextFields) ;;;
    if shouldValidateOnMount fieldOptions
    then detached (validateField validateHandler
                     {| chain := None; force := false;
                        explicitFieldProps := fieldProps;
                        explicitFields := None; forceProps := true;
                        shouldUpdateFields := true |})
    else ret tt.

End Registering.

(* ===================================================================== *)
(** ** Further reference descriptions *)
(* ===================================================================== *)

(** Along [q], wherever the object [obj] has the next segment and [q] goes
    on below it, the value there is a plain object. *)
Fixpoint objectsAlong (q : FieldPath) (obj : value) : bool :=
  match q with
  | [] => true
  | k :: q' =>
      match q' with
      | [] => true
      | _ => if has k obj
             then isObject (get k obj) && objectsAlong q' (get k obj)
             else true
      end
  end.

(** The patches of a batch that [applyStatePatch] keeps. *)
Definition keptPatches (prevFields : value) (statePatches : list StatePatch)
  : list StatePatch :=
  filter (fun patch => hasPath (fieldPath patch) prevFields) statePatches.

(** The calls once the action of [submit] settles: [onSubmitted] or
    [onSubmitFailed], then [onSubmitEnd], each if it is set. *)
Definition settledCalls (props : Props) (serialized fields : value)
    (pendingSubmit : actionResult) : list effect :=
  match pendingSubmit with
  | Plain _ => []
  | Fulfils res =>
      (if onSubmitted props
       then [CalledOnSubmitted serialized fields res] else [])
      ++ (if onSubmitEnd props
          then [CalledOnSubmitEnd serialized fields res] else [])
  | Rejects res =>
      (if onSubmitFailed props
       then [CalledOnSubmitFailed serialized fields res] else [])
      ++ (if onSubmitEnd props
          then [CalledOnSubmitEnd serialized fields res] else [])
  end.


Definition callsOnFirstChange (call : effect) : bool :=
  match call with
  | CalledOnFirstChange _ _ => true
  | _ => false
  end.

Definition isInvoked (call : effect) : bool :=
  match call with
  | Invoked _ _ _ => true
  | _ => false
  end.






(** Two values hold the same data: at every path they read the same, or
    both have an object there (objects may list their keys in different
    orders). *)
Definition sameData (a b : value) : Prop :=
  forall q,
    path q a = path q b
    \/ (isObject (path q a) = true /\ isObject (path q b) = true).

Module Demo.

(** A third field, [c], about to be registered on the sample form, and a
    second component asking for the same path. *)
Definition fieldC : value :=
  VObj [("fieldPath", ofPath ["group"; "c"]); ("value", VStr "")].

Definition keepProps : value -> value -> value :=
  fun fieldProps _ => fieldProps.


Definition registerC : Registration :=
  {| pristineFieldProps := fieldC;
     fieldOptions := {| allowMultiple := false; beforeRegister := keepProps;
                        shouldValidateOnMount := true |} |}.


Definition registerA : Registration :=
  {| pristineFieldProps := Sample.fieldA;
     fieldOptions := {| allowMultiple := false; beforeRegister := keepProps;
                        shouldValidateOnMount := false |} |}.

Definition eventOfC : FieldEvent :=
  {| event := VUndefined; fieldProps := fieldC;
     prevValue := VStr ""; nextValue := VStr "c" |}.

(** A form with nothing registered. *)
Definition emptyForm : Form :=
  {| state := {| fields := emptyObj; dirty := false |};
     emitted := []; effects := [] |}.

(** An action whose promise rejects. *)
Definition failing : value -> value -> actionResult :=
  fun _ _ => Rejects (VStr "503").



Definition spreadPatches : list (Emission StatePatch) :=
  [mkEmission 0 Sample.touchA; mkEmission 7 Sample.blurB;
   mkEmission 149 Sample.focusA].

End Demo.
(* ===================================================================== *)
(** ** Properties of the object operations *)
(* ===================================================================== *)

Unset Implicit Arguments.

Lemma lookup_setEntry_same k v es : lookup k (setEntry k v es) = Some v.
Proof.
  induction es as [| [k' v'] es IH]; simpl.
  - now rewrite String.eqb_refl.
  - destruct (String.eqb k k') eqn:E; simpl.
    + now rewrite String.eqb_refl.
    + now rewrite E.
Qed.

Lemma lookup_setEntry_other k k' v es :
  k <> k' -> lookup k (setEntry k' v es) = lookup k es.
Proof.
  intros Hne. induction es as [| [k0 v0] es IH]; simpl.
  - apply String.eqb_neq in Hne. now rewrite Hne.
  - destruct (String.eqb k' k0) eqn:E; simpl.
    + apply String.eqb_eq in E. subst k0.
      apply String.eqb_neq in Hne. now rewrite Hne.
    + destruct (String.eqb k k0); [reflexivity | exact IH].
Qed.

Lemma get_assoc_same k v obj : get k (assoc k v obj) = v.
Proof. unfold get, assoc. simpl. now rewrite lookup_setEntry_same. Qed.

Lemma get_assoc_other k k' v obj :
  k <> k' -> get k (assoc k' v obj) = get k obj.
Proof.
  intros Hne. unfold get, assoc. simpl.
  now rewrite lookup_setEntry_other.
Qed.

Lemma path_undefined p : path p VUndefined = VUndefined.
Proof. destruct p; reflexivity. Qed.

Lemma path_cons k p obj :
  path (k :: p) obj = path p (get k obj).
Proof.
  simpl. destruct obj; simpl; try reflexivity;
    unfold get; simpl; now rewrite path_undefined.
Qed.

Lemma assocPath_cons k p v obj :
  assocPath (k :: p) v obj =
  assoc k (assocPath p v (if has k obj then get k obj else emptyObj)) obj.
Proof.
  destruct p as [| k' p].
  - reflexivity.
  - cbn [assocPath].
    destruct obj; try reflexivity.
Qed.

(** Reading back what [assocPath] has just written. *)
Lemma path_assocPath p : forall v obj, path p (assocPath p v obj) = v.
Proof.
  induction p as [| k p IH]; intros v obj.
  - reflexivity.
  - rewrite assocPath_cons, path_cons, get_assoc_same. apply IH.
Qed.

(** Two paths are apart when they part ways at some segment: neither
    leads through the other. *)
Fixpoint apart (p q : FieldPath) : bool :=
  match p, q with
  | k :: p', k' :: q' => if String.eqb k k' then apart p' q' else true
  | _, _ => false
  end.

(** Writing at a path leaves what is read at a path apart from it. *)
Lemma path_assocPath_apart p : forall q v obj,
  apart p q = true -> path p (assocPath q v obj) = path p obj.
Proof.
  induction p as [| k p IH]; intros q v obj Hap.
  - discriminate.
  - destruct q as [| k' q]; [discriminate |].
    simpl in Hap. rewrite assocPath_cons, !path_cons.
    destruct (String.eqb k k') eqn:E.
    + apply String.eqb_eq in E. subst k'.
      rewrite get_assoc_same, IH by assumption.
      unfold has, get, hasKey.
      destruct (lookup k (ownEntries obj)); [reflexivity |].
      destruct p; [discriminate | now rewrite path_cons, path_undefined].
    + apply String.eqb_neq in E. now rewrite get_assoc_other.
Qed.

Lemma mergeDeepWithKey_obj fn les rObj :
  mergeDeepWithKey fn (VObj les) rObj =
  VObj (map (fun kv : string * value =>
               let (k, lVal) := kv in (k, mergedValue fn rObj k lVal)) les
        ++ filter (fun kv => negb (hasKey (fst kv) les)) (ownEntries rObj)).
Proof. reflexivity. Qed.

Lemma map_mergedValue_empty fn es :
  map (fun kv : string * value =>
         let (k, lVal) := kv in (k, mergedValue fn emptyObj k lVal)) es = es.
Proof.
  induction es as [| [k v] es IH]; simpl; [reflexivity | now rewrite IH].
Qed.

(** Merging the empty object into an object gives the object back. *)
Lemma mergeDeepWithKey_empty_r fn es :
  mergeDeepWithKey fn (VObj es) emptyObj = VObj es.
Proof.
  rewrite mergeDeepWithKey_obj, map_mergedValue_empty.
  simpl. now rewrite app_nil_r.
Qed.

Lemma mergeDeepWithKey_isObject fn l r :
  isObject (mergeDeepWithKey fn l r) = true.
Proof. destruct l; reflexivity. Qed.

Lemma lookup_app k es es' :
  lookup k (es ++ es') =
  match lookup k es with
  | Some v => Some v
  | None => lookup k es'
  end.
Proof.
  induction es as [| [k' v'] es IH]; simpl; [reflexivity |].
  destruct (String.eqb k k'); [reflexivity | exact IH].
Qed.

Lemma lookup_map_values k (g : string -> value -> value) es :
  lookup k (map (fun kv : string * value =>
                   let (k', v) := kv in (k', g k' v)) es)
  = option_map (g k) (lookup k es).
Proof.
  induction es as [| [k' v'] es IH]; simpl; [reflexivity |].
  destruct (String.eqb k k') eqn:E; [| exact IH].
  apply String.eqb_eq in E. now subst k'.
Qed.

Lemma lookup_filter_absent k (les es : list (string * value)) :
  hasKey k les = false ->
  lookup k (filter (fun kv => negb (hasKey (fst kv) les)) es) = lookup k es.
Proof.
  intros Hk. induction es as [| [k' v'] es IH]; simpl; [reflexivity |].
  destruct (String.eqb k k') eqn:E.
  - apply String.eqb_eq in E. subst k'. rewrite Hk. simpl.
    now rewrite String.eqb_refl.
  - destruct (hasKey k' les); simpl; [exact IH |].
    now rewrite E.
Qed.

Lemma hasKey_lookup k es :
  hasKey k es = match lookup k es with Some _ => true | None => false end.
Proof. reflexivity. Qed.

(** One level of a deep merge, read key by key. *)
Lemma get_mergeDeepWithKey fn k l r :
  get k (mergeDeepWithKey fn l r) =
  if has k l then
    if has k r then
      if isObject (get k l) && isObject (get k r)
      then mergeDeepWithKey fn (get k l) (get k r)
      else fn k (get k l) (get k r)
    else get k l
  else get k r.
Proof.
  destruct l as [| | b | n | s | items | les];
    try (unfold has, hasKey, get; simpl; reflexivity).
  rewrite mergeDeepWithKey_obj.
  unfold get at 1. cbn [ownEntries].
  rewrite lookup_app, (lookup_map_values k (mergedValue fn r)).
  change (has k (VObj les)) with (hasKey k les).
  destruct (lookup k les) as [lVal |] eqn:El.
  - assert (Hg : get k (VObj les) = lVal)
      by (unfold get; cbn [ownEntries]; now rewrite El).
    assert (Hh : hasKey k les = true) by (now rewrite hasKey_lookup, El).
    rewrite Hh, Hg. cbn [option_map]. unfold mergedValue, has, get.
    rewrite hasKey_lookup.
    destruct (lookup k (ownEntries r)); reflexivity.
  - assert (Hh : hasKey k les = false) by (now rewrite hasKey_lookup, El).
    rewrite Hh. cbn [option_map].
    rewrite lookup_filter_absent by exact Hh. reflexivity.
Qed.

Lemma has_mergeDeepWithKey fn k l r :
  has k (mergeDeepWithKey fn l r) = has k l || has k r.
Proof.
  destruct l as [| | b | n | s | items | les];
    try (unfold has, hasKey; simpl; reflexivity).
  rewrite mergeDeepWithKey_obj.
  unfold has. cbn [ownEntries].
  rewrite (hasKey_lookup k (_ ++ _)).
  rewrite lookup_app, (lookup_map_values k (mergedValue fn r)).
  destruct (hasKey k les) eqn:Hk; rewrite hasKey_lookup in Hk.
  - destruct (lookup k les) as [lVal |]; [reflexivity | discriminate].
  - destruct (lookup k les) as [lVal |] eqn:El; [discriminate |].
    cbn [option_map orb]. rewrite lookup_filter_absent; [reflexivity |].
    now rewrite hasKey_lookup, El.
Qed.

(* ===================================================================== *)
(** ** Properties of the state patch reconciler *)
(* ===================================================================== *)

Lemma bind_Returned {A B} (m : M A) (k : A -> M B) f a f' :
  m f = (Returned a, f') -> bind m k f = k a f'.
Proof. intros H. unfold bind. now rewrite H. Qed.

Lemma bind_Thrown {A B} (m : M A) (k : A -> M B) f e f' :
  m f = (Thrown e, f') -> bind m k f = (Thrown e, f').
Proof. intros H. unfold bind. now rewrite H. Qed.

Lemma performed_app {A} (m : M A) f calls :
  effects (snd (m f)) = effects f ++ calls -> performed m f = calls.
Proof.
  intros H. unfold performed.
  now rewrite H, skipn_app, skipn_all, Nat.sub_diag.
Qed.


Section ReconcilerProperties.

Variable setStateThrows : State -> StateUpdate -> option error.
Variable callbackEffect : Callback -> value -> value -> State -> State.

(** A patch whose field is not in the tree takes no part in the merge. *)
Lemma stale_patch_filtered prevFields pre patch post :
  hasPath (fieldPath patch) prevFields = false ->
  composeNextFields prevFields (pre ++ patch :: post)
  = composeNextFields prevFields (pre ++ post).
Proof.
  intros Hstale. unfold composeNextFields, stitchPatches.
  rewrite !filter_app. cbn [filter]. now rewrite Hstale.
Qed.

(** A batch of such patches only gives the tree back. *)
Lemma stale_batch_keeps_fields es statePatches :
  Forall (fun patch => hasPath (fieldPath patch) (VObj es) = false)
         statePatches ->
  composeNextFields (VObj es) statePatches = VObj es.
Proof.
  intros Hall. unfold composeNextFields, stitchPatches.
  replace (filter _ statePatches) with (@nil StatePatch).
  - apply mergeDeepWithKey_empty_r.
  - symmetry. induction Hall as [| patch l Hp _ IH]; [reflexivity |].
    cbn [filter]. now rewrite Hp.
Qed.

Lemma forEach_callbacks nextFields statePatches : forall g,
  exists s',
    forEach (fun patch =>
               match callback patch with
               | Some cb => invoke callbackEffect cb
                              (path (fieldPath patch) nextFields) nextFields
               | None => ret tt
               end) statePatches g
    = (Returned tt,
       {| state := s'; emitted := emitted g;
          effects := effects g ++ callbackCalls nextFields statePatches |}).
Proof.
  induction statePatches as [| patch l IH]; intros g.
  - exists (state g). destruct g. simpl. now rewrite app_nil_r.
  - cbn [forEach callbackCalls flat_map]. unfold bind.
    destruct (callback patch) as [cb |].
    + unfold invoke at 1.
      match goal with
      | |- context [forEach _ l ?g'] => destruct (IH g') as [s' Hs']
      end.
      exists s'. rewrite Hs'. cbn [emitted effects].
      now rewrite <- app_assoc.
    + unfold ret at 1. destruct (IH g) as [s' Hs'].
      exists s'. rewrite Hs'. reflexivity.
Qed.

Lemma promiseState_ok nextState f :
  setStateThrows (state f) nextState = None ->
  promiseState setStateThrows nextState f
  = (Returned (mergeState (state f) nextState),
     {| state := mergeState (state f) nextState;
        emitted := emitted f; effects := effects f |}).
Proof. intros H. unfold promiseState, setState. now rewrite H. Qed.

Lemma promiseState_throws nextState f e :
  setStateThrows (state f) nextState = Some e ->
  promiseState setStateThrows nextState f = (Thrown e, f).
Proof. intros H. unfold promiseState, setState. now rewrite H. Qed.

(** A committed batch: the form [applyStatePatch] leaves behind. *)
Lemma applyStatePatch_committed statePatches f :
  setStateThrows (state f)
    (fieldsUpdate (composeNextFields (fields (state f)) statePatches))
  = None ->
  exists s',
    applyStatePatch setStateThrows callbackEffect statePatches f
    = (Returned tt,
       {| state := s'; emitted := emitted f;
          effects := effects f
                     ++ callbackCalls
                          (composeNextFields (fields (state f)) statePatches)
                          statePatches |}).
Proof.
  intros Hcommit. unfold applyStatePatch.
  rewrite (bind_Returned getState _ f (state f) f) by reflexivity.
  erewrite bind_Returned by (apply promiseState_ok; exact Hcommit).
  cbn [mergeState fieldsUpdate nextFieldsOf fields].
  match goal with
  | |- context [forEach _ statePatches ?g] =>
      destruct (forEach_callbacks
                  (composeNextFields (fields (state f)) statePatches)
                  statePatches g) as [s' Hs']
  end.
  exists s'. exact Hs'.
Qed.


(** C4.  When committing the merged state throws, the promise of
    [applyStatePatch] rejects with what was thrown, no callback of the
    batch is called, and the form is left as it was: the tree of record is
    unchanged. *)
Theorem applyStatePatch_commit_failure statePatches f e :
  setStateThrows (state f)
    (fieldsUpdate (composeNextFields (fields (state f)) statePatches))
  = Some e ->
  applyStatePatch setStateThrows callbackEffect statePatches f = (Thrown e, f)
  /\ performed (applyStatePatch setStateThrows callbackEffect statePatches) f
     = []
  /\ fields (state (snd (applyStatePatch setStateThrows callbackEffect
                                         statePatches f)))
     = fields (state f).
Proof.
  intros Hthrows.
  assert (Hrun : applyStatePatch setStateThrows callbackEffect statePatches f
                 = (Thrown e, f)).
  { unfold applyStatePatch.
    rewrite (bind_Returned getState _ f (state f) f) by reflexivity.
    apply bind_Thrown, promiseState_throws, Hthrows. }
  unfold performed. rewrite Hrun. cbn [snd].
  repeat split. now rewrite skipn_all.
Qed.

End ReconcilerProperties.

(** C1.  A batch holding only a patch for a field that is not in the tree
    leaves the tree as it is, and yet the callback of that patch is called,
    with [undefined] for the field's record. *)
Theorem applyStatePatch_stale_patch_callback :
  hasPath (fieldPath Sample.stalePatch) Sample.tree = false
  /\ composeNextFields Sample.tree [Sample.stalePatch] = Sample.tree
  /\ performed (applyStatePatch Sample.accepts Sample.inert [Sample.stalePatch])
               Sample.form
     = [Invoked (FocusCallback (VObj [("fieldPath", ofPath ["gone"])]))
                VUndefined Sample.tree].
Proof. repeat split. Qed.


(** Witness of C4: the same batch on a host that refuses the update. *)
Lemma applyStatePatch_commit_failure_witness :
  applyStatePatch Sample.refuses Sample.inert
    [Sample.touchA; Sample.blurB; Sample.focusA] Sample.form
  = (Thrown (HostError 1), Sample.form)
  /\ performed (applyStatePatch Sample.refuses Sample.inert
                  [Sample.touchA; Sample.blurB; Sample.focusA]) Sample.form
     = []
  /\ fields (state (snd (applyStatePatch Sample.refuses Sample.inert
                  [Sample.touchA; Sample.blurB; Sample.focusA] Sample.form)))
     = fields (state Sample.form).
Proof.
  apply (applyStatePatch_commit_failure Sample.refuses Sample.inert
           [Sample.touchA; Sample.blurB; Sample.focusA] Sample.form
           (HostError 1)).
  reflexivity.
Defined.

(* ===================================================================== *)
(** ** Two patches for one path *)
(* ===================================================================== *)

Section Stitching.

Variable prevFields : value.

Lemma stitchPatches_fold statePatches :
  stitchPatches prevFields statePatches
  = fold_left stitchStep
      (filter (fun patch => hasPath (fieldPath patch) prevFields) statePatches)
      emptyObj.
Proof. reflexivity. Qed.

(** Patches for paths apart from [fp] leave what is stitched at [fp]. *)
Lemma fold_stitchStep_apart fp l : forall acc,
  Forall (fun patch => apart fp (fieldPath patch) = true) l ->
  path fp (fold_left stitchStep l acc) = path fp acc.
Proof.
  induction l as [| patch l IH]; intros acc Hall; [reflexivity |].
  inversion Hall as [| ? ? Hp Hl]; subst.
  cbn [fold_left]. rewrite IH by assumption.
  unfold stitchStep. now apply path_assocPath_apart.
Qed.


Lemma filter_kept_apart fp l :
  Forall (fun patch => hasPath (fieldPath patch) prevFields = true ->
                       apart fp (fieldPath patch) = true) l ->
  Forall (fun patch => apart fp (fieldPath patch) = true)
         (filter (fun patch => hasPath (fieldPath patch) prevFields) l).
Proof.
  induction l as [| patch l IH]; intros Hall; [constructor |].
  inversion Hall as [| ? ? Hp Hl]; subst. cbn [filter].
  destruct (hasPath (fieldPath patch) prevFields) eqn:E; auto.
Qed.


Lemma pathOr_undefined d p obj :
  path p obj = VUndefined -> pathOr d p obj = d.
Proof. intros H. unfold pathOr. now rewrite H. Qed.

Lemma path_emptyObj fp : fp <> [] -> path fp emptyObj = VUndefined.
Proof.
  destruct fp as [| k p]; [congruence | intros _].
  rewrite path_cons. apply path_undefined.
Qed.

Lemma hasPath_nonempty fp obj : hasPath fp obj = true -> fp <> [].
Proof. destruct fp; [discriminate | congruence]. Qed.


End Stitching.

Lemma get_absent k obj : has k obj = false -> get k obj = VUndefined.
Proof.
  unfold has, get. rewrite hasKey_lookup.
  destruct (lookup k (ownEntries obj)); [discriminate | reflexivity].
Qed.

Lemma get_mergeDeepLeft_empty k chunk :
  get k (mergeDeepLeft chunk emptyObj) = get k chunk.
Proof.
  unfold mergeDeepLeft. rewrite get_mergeDeepWithKey.
  destruct (has k chunk) eqn:E; [reflexivity |].
  now rewrite (get_absent k chunk E).
Qed.

Lemma has_mergeDeepLeft_empty k chunk :
  has k (mergeDeepLeft chunk emptyObj) = has k chunk.
Proof.
  unfold mergeDeepLeft. rewrite has_mergeDeepWithKey.
  apply orb_false_r.
Qed.




(* ===================================================================== *)
(** ** Properties of the buffered pipelines *)
(* ===================================================================== *)









(* ===================================================================== *)
(** ** Properties of combining validation results *)
(* ===================================================================== *)

Lemma expected_combine acc result :
  expected (combine acc result) = expected acc && expected result.
Proof. unfold combine. cbn [expected]. now destruct (expected acc). Qed.

Lemma combine_assoc a b c : combine (combine a b) c = combine a (combine b c).
Proof.
  unfold combine. cbn [expected rejectedRules].
  rewrite app_assoc. now destruct (expected a), (expected b).
Qed.

Lemma expected_reduce results : forall initialAcc,
  expected (reduceValidationResults initialAcc results)
  = expected initialAcc && forallb expected results.
Proof.
  unfold reduceValidationResults.
  induction results as [| r rs IH]; intros acc; cbn [fold_left forallb].
  - now rewrite andb_true_r.
  - now rewrite IH, expected_combine, andb_assoc.
Qed.

Lemma rejectedRules_reduce results : forall initialAcc,
  rejectedRules (reduceValidationResults initialAcc results)
  = rejectedRules initialAcc ++ List.concat (map rejectedRules results).
Proof.
  unfold reduceValidationResults.
  induction results as [| r rs IH]; intros acc; cbn [fold_left map List.concat].
  - now rewrite app_nil_r.
  - rewrite IH. unfold combine. cbn [rejectedRules]. now rewrite app_assoc.
Qed.

Lemma mapToSingleResult_fold validators args : forall acc,
  fold_left (fun acc validator =>
               reduceValidationResults acc
                 (validatorResultArr (validator args)))
            validators acc
  = reduceValidationResults acc
      (flat_map (fun validator : TValidatorFunc =>
                   validatorResultArr (validator args)) validators).
Proof.
  induction validators as [| v vs IH]; intros acc; [reflexivity |].
  cbn [fold_left flat_map]. rewrite IH.
  unfold reduceValidationResults. now rewrite fold_left_app.
Qed.

(** C6.  Reducing a sequence of validation results gives the conjunction of
    the [expected] flags and the concatenation of the [rejectedRules], in
    the order of the sequence -- for [reduceValidationResults] from its
    initial accumulator, and for [mapToSingleResult] over the results of the
    validators in declaration order.  The reducer is associative, it is
    commutative on [expected], and on [rejectedRules] it appends the right
    operand's rules to the left operand's. *)
Theorem validation_results_combine :
  (forall initialAcc results,
     expected (reduceValidationResults initialAcc results)
     = expected initialAcc && forallb expected results
     /\ rejectedRules (reduceValidationResults initialAcc results)
        = rejectedRules initialAcc ++ List.concat (map rejectedRules results))
  /\ (forall validators args,
        let results := flat_map (fun validator : TValidatorFunc =>
                                   validatorResultArr (validator args))
                                validators in
        expected (mapToSingleResult validators args) = forallb expected results
        /\ rejectedRules (mapToSingleResult validators args)
           = List.concat (map rejectedRules results))
  /\ (forall a b c, combine (combine a b) c = combine a (combine b c))
  /\ (forall a b, expected (combine a b) = expected (combine b a))
  /\ (forall a b, rejectedRules (combine a b)
                  = rejectedRules a ++ rejectedRules b).
Proof.
  split; [| split; [| split; [| split]]].
  - intros initialAcc results.
    split; [apply expected_reduce | apply rejectedRules_reduce].
  - intros validators args results.
    unfold mapToSingleResult. rewrite mapToSingleResult_fold. fold results.
    rewrite expected_reduce, rejectedRules_reduce. split; reflexivity.
  - apply combine_assoc.
  - intros a b. rewrite !expected_combine. apply andb_comm.
  - reflexivity.
Qed.

(* ===================================================================== *)
(** ** Properties of validation, submission and the field handlers *)
(* ===================================================================== *)

Lemma performed_none {A} (m : M A) f :
  effects (snd (m f)) = effects f -> performed m f = [].
Proof. intros H. unfold performed. rewrite H. apply skipn_all. Qed.

(** What [getLeavesWhich] returns matches the predicate. *)
Lemma getLeavesWhich_match predicate :
  forall obj v, In v (getLeavesWhich predicate obj) -> predicate v = true.
Proof.
  fix IH 1. intros [| | b | n | s | items | es] v Hin;
    try (now destruct Hin).
  cbn [getLeavesWhich] in Hin. apply in_flat_map in Hin.
  destruct Hin as [[k x] [Hx Hv]].
  destruct (predicate x) eqn:E.
  - destruct Hv as [<- | []]. exact E.
  - revert x Hx E Hv.
    induction es as [| [k' x'] es IHes]; intros x Hx E Hv; [destruct Hx |].
    destruct Hx as [Heq | Hx].
    + injection Heq as _ <-. exact (IH x' v Hv).
    + exact (IHes x Hx E Hv).
Qed.

Lemma lookup_In k es x : lookup k es = Some x -> In (k, x) es.
Proof.
  induction es as [| [k' x'] es IH]; cbn [lookup]; [discriminate |].
  destruct (String.eqb k k') eqn:E.
  - apply String.eqb_eq in E. intros [= ->]. subst. now left.
  - intros H. right. now apply IH.
Qed.

(** Every leaf of the tree that matches is returned. *)
Lemma getLeavesWhich_leafAt predicate p :
  forall obj v, leafAt predicate p obj v -> In v (getLeavesWhich predicate obj).
Proof.
  induction p as [| k p IH]; intros obj v Hleaf; [destruct Hleaf |].
  destruct Hleaf as [x [Hx Hv]].
  destruct obj as [| | b | n | s | items | es]; try discriminate Hx.
  cbn [ownEntries] in Hx. apply lookup_In in Hx.
  cbn [getLeavesWhich]. apply in_flat_map. exists (k, x).
  split; [exact Hx |].
  destruct (predicate x).
  - destruct Hv as [_ ->]. now left.
  - now apply IH.
Qed.

Section ControllerProperties.

Variable setStateThrows : State -> StateUpdate -> option error.
Variable callbackEffect : Callback -> value -> value -> State -> State.
Variable props : Props.
Variable changeHandler : FieldEvent -> value -> list value * value.
Variable blurHandler : FieldEvent -> value -> value.
Variable validateHandler : option value -> bool -> value -> value -> value.
Variable serializeFields : value -> value.

(** [validateField({ fieldProps })] reads the state, emits its patch and
    resolves with the validated record. *)
Lemma validateField_run fieldProps f :
  validateField validateHandler (validateFieldOf fieldProps) f
  = (Returned (validatedField validateHandler (fields (state f)) fieldProps),
     {| state := state f;
        emitted := emitted f
                   ++ [validationPatch validateHandler (fields (state f))
                                       fieldProps];
        effects := effects f |}).
Proof. reflexivity. Qed.

Lemma mapM_validateField leaves : forall f,
  mapM (fun fieldProps =>
          validateField validateHandler (validateFieldOf fieldProps)) leaves f
  = (Returned (map (validatedField validateHandler (fields (state f))) leaves),
     {| state := state f;
        emitted := emitted f
                   ++ map (validationPatch validateHandler (fields (state f)))
                          leaves;
        effects := effects f |}).
Proof.
  induction leaves as [| leaf leaves IH]; intros f.
  - destruct f. cbn [mapM ret map state emitted effects].
    now rewrite app_nil_r.
  - cbn [mapM].
    erewrite bind_Returned by apply validateField_run.
    erewrite bind_Returned by apply IH.
    cbn [state emitted effects ret map]. now rewrite <- app_assoc.
Qed.

(** The run of [validate(predicate)], spelled out. *)
Lemma validate_run predicate f :
  let validatedFields :=
    map (validatedField validateHandler (fields (state f)))
        (fieldsToValidate predicate f) in
  let isFormValid := forallb (propEqBool "expected" true) validatedFields in
  validate props validateHandler predicate f
  = (Returned isFormValid,
     {| state := state f;
        emitted := emitted f
                   ++ map (validationPatch validateHandler (fields (state f)))
                          (fieldsToValidate predicate f);
        effects := effects f
                   ++ (if negb isFormValid && onInvalid props
                       then [CalledOnInvalid
                               (filter (propEqBool "expected" false)
                                       validatedFields)
                               (fields (state f))]
                       else []) |}).
Proof.
  intros validatedFields isFormValid. unfold validate.
  rewrite (bind_Returned getState _ f (state f) f) by reflexivity.
  erewrite bind_Returned by apply mapM_validateField.
  fold (fieldsToValidate predicate f). fold validatedFields.
  fold isFormValid.
  destruct (negb isFormValid && onInvalid props) eqn:Hinvalid.
  - apply andb_prop in Hinvalid as [_ Hhook].
    unfold bind, getState, dispatch. rewrite Hhook. reflexivity.
  - unfold bind, ret. cbn [state emitted effects].
    now rewrite app_nil_r.
Qed.


Lemma propEqBool_true name obj :
  propEqBool name true obj = true <-> get name obj = VBool true.
Proof.
  unfold propEqBool. destruct (get name obj) as [| | [|] | | | |];
    cbn [Bool.eqb]; split; intros H; congruence.
Qed.

(** C7.  [validate(predicate)] validates the leaf fields of the tree that
    match the predicate -- every one of them, in order, and nothing else;
    it resolves with [true] exactly when every validated field is valid;
    and when the result is [false] and [onInvalid] is set, [onInvalid] is
    called, once, with exactly the validated fields that are invalid -- no
    call is made otherwise. *)
Theorem validate_all_matching_fields predicate f :
  let matches := fun v => is_Object v && has "fieldPath" v && predicate v in
  let validatedFields :=
    map (validatedField validateHandler (fields (state f)))
        (fieldsToValidate predicate f) in
  (forall p v, leafAt matches p (fields (state f)) v ->
               In v (fieldsToValidate predicate f))
  /\ Forall (fun v => matches v = true) (fieldsToValidate predicate f)
  /\ exists isFormValid,
       fst (validate props validateHandler predicate f) = Returned isFormValid
       /\ emitted (snd (validate props validateHandler predicate f))
          = emitted f
            ++ map (validationPatch validateHandler (fields (state f)))
                   (fieldsToValidate predicate f)
       /\ (isFormValid = true <->
           Forall (fun validated => get "expected" validated = VBool true)
                  validatedFields)
       /\ performed (validate props validateHandler predicate) f
          = (if negb isFormValid && onInvalid props
             then [CalledOnInvalid
                     (filter (propEqBool "expected" false) validatedFields)
                     (fields (state f))]
             else []).
Proof.
  intros matches validatedFields.
  split; [| split].
  - intros p v. apply getLeavesWhich_leafAt.
  - apply Forall_forall. intros v. apply getLeavesWhich_match.
  - exists (forallb (propEqBool "expected" true) validatedFields).
    pose proof (validate_run predicate f) as Hrun. cbv zeta in Hrun.
    fold validatedFields in Hrun.
    split; [now rewrite Hrun |]. split; [now rewrite Hrun |]. split.
    + split; intros Hall.
      * rewrite forallb_forall in Hall.
        apply Forall_forall. intros v Hv.
        now apply propEqBool_true, Hall.
      * rewrite Forall_forall in Hall.
        apply forallb_forall. intros v Hv.
        now apply propEqBool_true, Hall.
    + apply performed_app. now rewrite Hrun.
Qed.

(** C8.  When form-level validation fails, [submit()] resolves with
    [undefined], and neither the action nor [onSubmitStart] is called. *)
Theorem submit_invalid_form_aborts f :
  fst (validate props validateHandler (fun _ => true) f) = Returned false ->
  (action props <> None ->
   fst (submit props validateHandler serializeFields f) = Returned VUndefined)
  /\ existsb callsAction
       (performed (submit props validateHandler serializeFields) f) = false
  /\ existsb callsOnSubmitStart
       (performed (submit props validateHandler serializeFields) f) = false.
Proof.
  intros Hinvalid.
  pose proof (validate_run (fun _ => true) f) as Hrun. cbv zeta in Hrun.
  rewrite Hrun in Hinvalid. cbn [fst] in Hinvalid.
  injection Hinvalid as Hvalid. rewrite Hvalid in Hrun.
  destruct (action props) as [act |] eqn:Hact.
  - assert (Hsub : submit props validateHandler serializeFields f
                   = (Returned VUndefined,
                      snd (validate props validateHandler (fun _ => true) f))).
    { unfold submit. rewrite Hact.
      erewrite bind_Returned by exact Hrun.
      rewrite Hrun. reflexivity. }
    split; [now rewrite Hsub |].
    unfold performed. rewrite Hsub, Hrun. cbn [snd effects].
    rewrite skipn_app, skipn_all, Nat.sub_diag. cbn [skipn app].
    destruct (negb false && onInvalid props); split; reflexivity.
  - split; [congruence |].
    assert (Hsub :
              effects (snd (submit props validateHandler serializeFields f))
              = effects f)
      by (unfold submit; now rewrite Hact).
    rewrite performed_none by exact Hsub. split; reflexivity.
Qed.


(** The path of a field that is not in the tree reads as [undefined]. *)
Lemma path_of_unregistered fp obj :
  fp <> [] -> hasPath fp obj = false -> path fp obj = VUndefined.
Proof.
  intros Hne Hnot. destruct fp as [| k p]; [congruence |]. clear Hne.
  cbn [hasPath] in Hnot. revert k obj Hnot.
  induction p as [| k' p IH]; intros k obj Hnot; rewrite path_cons.
  - cbn [hasPathFrom] in Hnot. cbn [path].
    destruct (has k obj) eqn:E; [discriminate | now apply get_absent].
  - cbn [hasPathFrom] in Hnot. cbn [hasPathFrom] in IH.
    destruct (has k obj) eqn:E.
    + now apply IH.
    + rewrite (get_absent k obj E). apply path_undefined.
Qed.



End ControllerProperties.

(* ===================================================================== *)
(** ** The sample form at work *)
(* ===================================================================== *)

(** Scenario A: [a] holds ["x"], [b] is required and empty; [validate()]
    resolves with [false] and [onInvalid] receives [b] alone. *)
Example validate_sample_form :
  fst (validate (Sample.propsWith Sample.dutiful) Sample.requiredRule
                (fun _ => true) Sample.form)
  = Returned false
  /\ performed (validate (Sample.propsWith Sample.dutiful) Sample.requiredRule
                         (fun _ => true)) Sample.form
     = [CalledOnInvalid
          [validatedField Sample.requiredRule Sample.tree Sample.fieldB]
          Sample.tree].
Proof. split; reflexivity. Qed.

(** A focus event of a registered field does emit its patch. *)
Example handleFieldFocus_registered :
  handleFieldFocus Sample.eventOfA Sample.form
  = (Returned tt,
     {| state := state Sample.form;
        emitted := [ {| fieldPath := ["a"];
                        stateChunk := VObj [("focused", VBool true)];
                        callback := Some (FocusCallback Sample.fieldA) |} ];
        effects := [] |}).
Proof. reflexivity. Qed.

(** A change event of a registered field applies the intermediate patch at
    once, emits the final one and marks the form dirty. *)
Example handleFieldChange_registered :
  handleFieldChange Sample.accepts Sample.inert
    (Sample.propsWith Sample.dutiful) Sample.onChange
    Sample.eventOfA Sample.form
  = (Returned tt,
     {| state :=
          {| fields :=
               VObj [("a", VObj [("fieldPath", ofPath ["a"]);
                                 ("value", VStr "xy")]);
                     ("b", Sample.fieldB)];
             dirty := true |};
        emitted := [ {| fieldPath := ["a"];
                        stateChunk := VObj [("validated", VBool false)];
                        callback := None |} ];
        effects :=
          [Invoked (ChangeCallback (VStr "x") (VStr "xy"))
                   (VObj [("fieldPath", ofPath ["a"]); ("value", VStr "xy")])
                   (VObj [("a", VObj [("fieldPath", ofPath ["a"]);
                                      ("value", VStr "xy")]);
                          ("b", Sample.fieldB)]);
           CalledOnFirstChange Sample.fieldA
             (VObj [("a", VObj [("fieldPath", ofPath ["a"]);
                                ("value", VStr "xy")]);
                    ("b", Sample.fieldB)])] |}).
Proof. reflexivity. Qed.

(** A valid form and a dutiful action: the whole submission runs. *)
Example submit_valid_form :
  performed (submit (Sample.propsWith Sample.dutiful) Sample.requiredRule
                    Sample.serializeValues) Sample.validForm
  = let serialized := VObj [("a", VStr "x"); ("b", VStr "filled")] in
    let fields := fields (state Sample.validForm) in
    [CalledOnSubmitStart serialized fields;
     CalledAction serialized fields;
     CalledOnSubmitted serialized fields serialized;
     CalledOnSubmitEnd serialized fields serialized].
Proof. reflexivity. Qed.

(** Witness of C7: [validate()] on the sample form. *)
Lemma validate_all_matching_fields_witness :
  let matches := fun v => is_Object v && has "fieldPath" v && true in
  let validatedFields :=
    map (validatedField Sample.requiredRule Sample.tree)
        (fieldsToValidate (fun _ => true) Sample.form) in
  (forall p v, leafAt matches p Sample.tree v ->
               In v (fieldsToValidate (fun _ => true) Sample.form))
  /\ Forall (fun v => matches v = true)
            (fieldsToValidate (fun _ => true) Sample.form)
  /\ exists isFormValid,
       fst (validate (Sample.propsWith Sample.dutiful) Sample.requiredRule
                     (fun _ => true) Sample.form) = Returned isFormValid
       /\ emitted (snd (validate (Sample.propsWith Sample.dutiful)
                                 Sample.requiredRule (fun _ => true)
                                 Sample.form))
          = [] ++ map (validationPatch Sample.requiredRule Sample.tree)
                      (fieldsToValidate (fun _ => true) Sample.form)
       /\ (isFormValid = true <->
           Forall (fun validated => get "expected" validated = VBool true)
                  validatedFields)
       /\ performed (validate (Sample.propsWith Sample.dutiful)
                              Sample.requiredRule (fun _ => true)) Sample.form
          = (if negb isFormValid && true
             then [CalledOnInvalid
                     (filter (propEqBool "expected" false) validatedFields)
                     Sample.tree]
             else []).
Proof.
  exact (validate_all_matching_fields
           (Sample.propsWith Sample.dutiful) Sample.requiredRule
           (fun _ => true) Sample.form).
Defined.

(** Witness of C8: submitting the sample form, on which [b] is invalid. *)
Lemma submit_invalid_form_aborts_witness :
  fst (submit (Sample.propsWith Sample.dutiful) Sample.requiredRule
              Sample.serializeValues Sample.form)
  = Returned VUndefined
  /\ existsb callsAction
       (performed (submit (Sample.propsWith Sample.dutiful)
                          Sample.requiredRule Sample.serializeValues)
                  Sample.form) = false
  /\ existsb callsOnSubmitStart
       (performed (submit (Sample.propsWith Sample.dutiful)
                          Sample.requiredRule Sample.serializeValues)
                  Sample.form) = false.
Proof.
  destruct (submit_invalid_form_aborts
              (Sample.propsWith Sample.dutiful) Sample.requiredRule
              Sample.serializeValues Sample.form eq_refl)
    as [Hresult Hcalls].
  split; [apply Hresult; discriminate | exact Hcalls].
Defined.



(* ===================================================================== *)
(** ** What a batch changes in the tree, and what it leaves *)
(* ===================================================================== *)

Lemma has_assoc_same k v obj : has k (assoc k v obj) = true.
Proof.
  unfold has, assoc. rewrite hasKey_lookup. cbn [ownEntries].
  now rewrite lookup_setEntry_same.
Qed.

Lemma has_assoc_other k k' v obj :
  k <> k' -> has k (assoc k' v obj) = has k obj.
Proof.
  intros Hne. unfold has, assoc. rewrite !hasKey_lookup. cbn [ownEntries].
  now rewrite lookup_setEntry_other.
Qed.

Lemma has_isObject k obj : has k obj = true -> isObject obj = true.
Proof. destruct obj; try discriminate; reflexivity. Qed.

Lemma assocPath_isObject p v obj :
  p <> [] -> isObject (assocPath p v obj) = true.
Proof. destruct p; [congruence | intros _]. now rewrite assocPath_cons. Qed.

Lemma apart_cons k p k' q :
  apart (k :: p) (k' :: q) = if String.eqb k k' then apart p q else true.
Proof. reflexivity. Qed.

Lemma apart_nonempty_r p q : apart p q = true -> q <> [].
Proof. destruct p, q; try discriminate; congruence. Qed.

Lemma apart_nonempty_l p q : apart p q = true -> p <> [].
Proof. destruct p; [discriminate | congruence]. Qed.

Lemma hasPathFrom_hasPath p obj :
  p <> [] -> hasPath p obj = hasPathFrom p obj.
Proof. destruct p; [congruence | reflexivity]. Qed.

Lemma get_mergeDeepRight k l r :
  get k (mergeDeepRight l r) =
  if has k l then
    if has k r then
      if isObject (get k l) && isObject (get k r)
      then mergeDeepRight (get k l) (get k r)
      else get k r
    else get k l
  else get k r.
Proof. unfold mergeDeepRight. apply get_mergeDeepWithKey. Qed.

Lemma mergeDeepRight_empty obj :
  isObject obj = true -> mergeDeepRight obj emptyObj = obj.
Proof.
  destruct obj; try discriminate. intros _.
  apply mergeDeepWithKey_empty_r.
Qed.

Lemma objectsAlong_emptyObj q : objectsAlong q emptyObj = true.
Proof. destruct q as [| k [| k' q]]; reflexivity. Qed.

Lemma objectsAlong_cons k k' q obj :
  objectsAlong (k :: k' :: q) obj
  = if has k obj
    then isObject (get k obj) && objectsAlong (k' :: q) (get k obj)
    else true.
Proof. reflexivity. Qed.

(** The object below the first segment, as [assocPath] takes it. *)
Lemma objectsAlong_next k k' q obj :
  objectsAlong (k :: k' :: q) obj = true ->
  objectsAlong (k' :: q) (if has k obj then get k obj else emptyObj) = true.
Proof.
  rewrite objectsAlong_cons. destruct (has k obj).
  - intros H. now apply andb_prop in H.
  - intros _. apply objectsAlong_emptyObj.
Qed.

(** Writing at a path apart from [q] keeps the objects along [q]. *)
Lemma objectsAlong_assocPath_apart q : forall fp v obj,
  apart q fp = true ->
  objectsAlong q obj = true ->
  objectsAlong q (assocPath fp v obj) = true.
Proof.
  induction q as [| k q IH]; intros fp v obj Hap Hobj; [discriminate |].
  destruct fp as [| k' fp]; [discriminate |].
  destruct q as [| k2 q]; [reflexivity |].
  rewrite assocPath_cons, objectsAlong_cons.
  revert Hap. rewrite apart_cons.
  destruct (String.eqb k k') eqn:E; intros Hap.
  - apply String.eqb_eq in E. subst k'.
    rewrite has_assoc_same, get_assoc_same.
    rewrite assocPath_isObject by (eapply apart_nonempty_r; eassumption).
    cbn [andb]. apply IH; [exact Hap |].
    now apply objectsAlong_next.
  - apply String.eqb_neq in E.
    rewrite has_assoc_other, get_assoc_other by assumption.
    now rewrite <- objectsAlong_cons.
Qed.

(** Writing at [q] itself keeps the objects along [q]. *)
Lemma objectsAlong_assocPath_same q : forall v obj,
  objectsAlong q obj = true ->
  objectsAlong q (assocPath q v obj) = true.
Proof.
  induction q as [| k q IH]; intros v obj Hobj; [reflexivity |].
  destruct q as [| k2 q]; [reflexivity |].
  rewrite assocPath_cons, objectsAlong_cons.
  rewrite has_assoc_same, get_assoc_same.
  rewrite assocPath_isObject by discriminate.
  cbn [andb]. apply IH. now apply objectsAlong_next.
Qed.

(** Merging in an object that was written to at a path apart from [q] reads
    at [q] as merging in the object before the write. *)
Lemma path_mergeDeepRight_assocPath_apart q : forall fp v acc obj,
  apart q fp = true ->
  hasPathFrom fp obj = true ->
  objectsAlong q acc = true ->
  path q (mergeDeepRight obj (assocPath fp v acc))
  = path q (mergeDeepRight obj acc).
Proof.
  induction q as [| k q IH]; intros fp v acc obj Hap Hhas Hacc;
    [discriminate |].
  destruct fp as [| k' fp]; [discriminate |].
  rewrite assocPath_cons, !path_cons.
  rewrite !get_mergeDeepRight.
  revert Hap. rewrite apart_cons.
  destruct (String.eqb k k') eqn:E; intros Hap.
  - apply String.eqb_eq in E. subst k'.
    assert (Hq : q <> []) by (eapply apart_nonempty_l; eassumption).
    assert (Hfp : fp <> []) by (eapply apart_nonempty_r; eassumption).
    cbn [hasPathFrom] in Hhas.
    destruct (has k obj) eqn:Hk; [| discriminate].
    assert (Hsub : isObject (get k obj) = true).
    { destruct fp as [| k2 fp]; [congruence |]. cbn [hasPathFrom] in Hhas.
      destruct (has k2 (get k obj)) eqn:E2; [| discriminate].
      eapply has_isObject; eassumption. }
    rewrite has_assoc_same, get_assoc_same, Hsub.
    rewrite assocPath_isObject by assumption. cbn [andb].
    destruct q as [| k2 q]; [congruence |].
    rewrite IH; [| exact Hap | exact Hhas | now apply objectsAlong_next].
    rewrite objectsAlong_cons in Hacc.
    destruct (has k acc).
    + apply andb_prop in Hacc as [Hobj _]. now rewrite Hobj.
    + now rewrite mergeDeepRight_empty.
  - apply String.eqb_neq in E.
    now rewrite has_assoc_other, get_assoc_other.
Qed.

(** Merging in an object with [v] written at a path of [obj] reads at that
    path as [v] merged over what [obj] has there. *)
Lemma path_mergeDeepRight_assocPath fp : forall v acc obj,
  fp <> [] ->
  hasPathFrom fp obj = true ->
  isObject v = true ->
  path fp (mergeDeepRight obj (assocPath fp v acc))
  = if isObject (path fp obj) then mergeDeepRight (path fp obj) v else v.
Proof.
  induction fp as [| k fp IH]; intros v acc obj Hne Hhas Hv; [congruence |].
  rewrite assocPath_cons, !path_cons.
  rewrite get_mergeDeepRight.
  cbn [hasPathFrom] in Hhas.
  destruct (has k obj) eqn:Hk; [| discriminate].
  rewrite has_assoc_same, get_assoc_same.
  destruct fp as [| k2 fp].
  - cbn [assocPath path]. rewrite Hv, andb_true_r. reflexivity.
  - assert (Hsub : isObject (get k obj) = true).
    { cbn [hasPathFrom] in Hhas.
      destruct (has k2 (get k obj)) eqn:E2; [| discriminate].
      eapply has_isObject; eassumption. }
    rewrite Hsub, assocPath_isObject by discriminate. cbn [andb].
    apply IH; [discriminate | exact Hhas | exact Hv].
Qed.

Section Frame.

Variable prevFields : value.
Variable q : FieldPath.

(** Stitching patches that are in the tree and apart from [q]. *)
Lemma fold_stitchStep_frame l : forall acc,
  Forall (fun patch => hasPath (fieldPath patch) prevFields = true
                       /\ apart q (fieldPath patch) = true) l ->
  objectsAlong q acc = true ->
  objectsAlong q (fold_left stitchStep l acc) = true
  /\ path q (mergeDeepRight prevFields (fold_left stitchStep l acc))
     = path q (mergeDeepRight prevFields acc).
Proof.
  induction l as [| patch l IH]; intros acc Hall Hacc; [now split |].
  inversion Hall as [| ? ? [Hin Hap] Hl]; subst.
  cbn [fold_left].
  assert (Hstep : objectsAlong q (stitchStep acc patch) = true)
    by (now apply objectsAlong_assocPath_apart).
  destruct (IH _ Hl Hstep) as [Hobj Hpath].
  split; [exact Hobj |].
  rewrite Hpath. unfold stitchStep.
  apply path_mergeDeepRight_assocPath_apart; try assumption.
  rewrite <- hasPathFrom_hasPath; [exact Hin |].
  eapply apart_nonempty_r; eassumption.
Qed.

Lemma kept_in_tree_and_apart statePatches :
  Forall (fun patch => hasPath (fieldPath patch) prevFields = true ->
                       apart q (fieldPath patch) = true) statePatches ->
  Forall (fun patch => hasPath (fieldPath patch) prevFields = true
                       /\ apart q (fieldPath patch) = true)
         (keptPatches prevFields statePatches).
Proof.
  intros Hall. apply Forall_forall. intros patch Hin.
  apply filter_In in Hin as [Hin Hkept].
  rewrite Forall_forall in Hall. split; [exact Hkept | now apply Hall].
Qed.

End Frame.


(** The record a batch commits at a path that one of its patches addresses,
    the other patches being stale or apart from it. *)
Lemma composeNextFields_at_patch prevFields fp chunk cb pre post :
  hasPath fp prevFields = true ->
  Forall (fun patch => hasPath (fieldPath patch) prevFields = true ->
                       apart fp (fieldPath patch) = true) (pre ++ post) ->
  path fp (composeNextFields prevFields (pre ++ mkPatch fp chunk cb :: post))
  = if isObject (path fp prevFields)
    then mergeDeepRight (path fp prevFields) (mergeDeepLeft chunk emptyObj)
    else mergeDeepLeft chunk emptyObj.
Proof.
  intros Hfp Hall.
  assert (Hne : fp <> []) by (eapply hasPath_nonempty; eassumption).
  apply Forall_app in Hall as [Hpre Hpost].
  unfold composeNextFields. rewrite stitchPatches_fold.
  rewrite filter_app. cbn [filter fieldPath]. rewrite Hfp.
  rewrite fold_left_app. cbn [fold_left].
  fold (keptPatches prevFields pre). fold (keptPatches prevFields post).
  destruct (fold_stitchStep_frame prevFields fp
              (keptPatches prevFields pre) emptyObj) as [Hobj _];
    [now apply kept_in_tree_and_apart | apply objectsAlong_emptyObj |].
  destruct (fold_stitchStep_frame prevFields fp
              (keptPatches prevFields post)
              (stitchStep (fold_left stitchStep (keptPatches prevFields pre)
                                     emptyObj)
                          (mkPatch fp chunk cb))) as [_ Hpath];
    [now apply kept_in_tree_and_apart
    | unfold stitchStep; cbn [fieldPath stateChunk];
      now apply objectsAlong_assocPath_same |].
  rewrite Hpath. unfold stitchStep at 1. cbn [fieldPath stateChunk].
  rewrite path_mergeDeepRight_assocPath;
    [| exact Hne | now rewrite <- hasPathFrom_hasPath
     | apply mergeDeepWithKey_isObject].
  rewrite pathOr_undefined; [reflexivity |].
  rewrite fold_stitchStep_apart.
  - now apply path_emptyObj.
  - apply filter_kept_apart. exact Hpre.
Qed.


(* ===================================================================== *)
(** ** Properties of field registration *)
(* ===================================================================== *)

Section RegistrationProperties.

Variable setStateThrows : State -> StateUpdate -> option error.
Variable validateHandler : option value -> bool -> value -> value -> value.

Lemma setState_ok nextState f :
  setStateThrows (state f) nextState = None ->
  setState setStateThrows nextState f
  = (Returned tt,
     {| state := mergeState (state f) nextState;
        emitted := emitted f; effects := effects f |}).
Proof. intros H. unfold setState. now rewrite H. Qed.

(** A registration that goes through: the form it leaves. *)
Lemma registerField_registered registration f :
  let fieldPath := fieldPathOf (pristineFieldProps registration) in
  let fieldOptions := fieldOptions registration in
  let fieldProps :=
    beforeRegister fieldOptions (pristineFieldProps registration)
                   (fields (state f)) in
  let nextFields := assocPath fieldPath fieldProps (fields (state f)) in
  truthy (path fieldPath (fields (state f)))
  && negb (allowMultiple fieldOptions) = false ->
  truthy fieldProps = true ->
  setStateThrows (state f) (fieldsUpdate nextFields) = None ->
  registerField setStateThrows validateHandler registration f
  = (Returned tt,
     {| state := {| fields := nextFields; dirty := dirty (state f) |};
        emitted :=
          emitted f
          ++ (if shouldValidateOnMount fieldOptions
              then [ {| fieldPath := fieldPathOf fieldProps;
                        stateChunk :=
                          validateHandler None false fieldProps nextFields;
                        callback := None |} ]
              else []);
        effects := effects f |}).
Proof.
  intros fieldPath fieldOptions fieldProps nextFields Hfree Hprops Hcommit.
  unfold registerField.
  rewrite (bind_Returned getState _ f (state f) f) by reflexivity.
  fold fieldPath fieldOptions. rewrite Hfree. cbn [negb invariant].
  rewrite (bind_Returned (ret tt) _ f tt f) by reflexivity.
  fold fieldProps. rewrite Hprops. cbn [negb]. fold nextFields.
  erewrite bind_Returned by (apply setState_ok; exact Hcommit).
  destruct (shouldValidateOnMount fieldOptions).
  - unfold detached, validateField.
    rewrite (bind_Returned getState _ _ _ _ eq_refl).
    cbn [forceProps explicitFieldProps explicitFields chain force
         shouldUpdateFields state fields].
    rewrite Hprops. reflexivity.
  - unfold ret. cbn [state emitted effects mergeState fieldsUpdate
                     nextFieldsOf nextDirtyOf].
    now rewrite app_nil_r.
Qed.


(** X4.  A second registration of a path is refused.  Once a registration
    has gone through, registering the same path again without
    [allowMultiple] throws the invariant violation and leaves the form as
    the first registration left it. *)
Theorem registerField_twice first second f :
  let fieldPath := fieldPathOf (pristineFieldProps first) in
  let fieldProps :=
    beforeRegister (fieldOptions first) (pristineFieldProps first)
                   (fields (state f)) in
  let f' := snd (registerField setStateThrows validateHandler first f) in
  truthy (path fieldPath (fields (state f)))
  && negb (allowMultiple (fieldOptions first)) = false ->
  truthy fieldProps = true ->
  setStateThrows (state f)
    (fieldsUpdate (assocPath fieldPath fieldProps (fields (state f)))) = None ->
  fieldPathOf (pristineFieldProps second) = fieldPath ->
  allowMultiple (fieldOptions second) = false ->
  exists message,
    registerField setStateThrows validateHandler second f'
    = (Thrown (InvariantViolation message), f').
Proof.
  intros fieldPath fieldProps f' Hfree Hprops Hcommit Hsame Hsingle.
  assert (Hthere : path fieldPath (fields (state f')) = fieldProps).
  { subst f'. rewrite registerField_registered by assumption.
    apply path_assocPath. }
  unfold registerField.
  rewrite (bind_Returned getState _ f' (state f') f') by reflexivity.
  rewrite Hsame, Hthere, Hprops, Hsingle. cbn [negb andb invariant].
  eexists. reflexivity.
Qed.


End RegistrationProperties.

(* ===================================================================== *)
(** ** The field handlers on a registered field *)
(* ===================================================================== *)

Lemma isObject_truthy v : isObject v = true -> truthy v = true.
Proof. destruct v; try discriminate; reflexivity. Qed.

Lemma withRegisteredField_registered func args f :
  truthy (path (fieldPathOf (fieldProps args)) (fields (state f))) = true ->
  withRegisteredField func args f = func args f.
Proof.
  intros Hthere. unfold withRegisteredField.
  rewrite (bind_Returned getState _ f (state f) f) by reflexivity.
  now rewrite Hthere.
Qed.

Lemma handleFieldFocus_run args f :
  truthy (path (fieldPathOf (fieldProps args)) (fields (state f))) = true ->
  handleFieldFocus args f
  = (Returned tt,
     {| state := state f;
        emitted := emitted f
                   ++ [ {| fieldPath := fieldPathOf (fieldProps args);
                           stateChunk := VObj [("focused", VBool true)];
                           callback :=
                             Some (FocusCallback (fieldProps args)) |} ];
        effects := effects f |}).
Proof.
  intros Hthere. unfold handleFieldFocus.
  now rewrite withRegisteredField_registered.
Qed.

Lemma forallb_isInvoked_callbackCalls nextFields statePatches :
  forallb isInvoked (callbackCalls nextFields statePatches) = true.
Proof.
  induction statePatches as [| patch l IH]; [reflexivity |].
  cbn [callbackCalls flat_map]. rewrite forallb_app.
  destruct (callback patch); cbn [forallb isInvoked andb]; exact IH.
Qed.

Section HandlerProperties.

Variable setStateThrows : State -> StateUpdate -> option error.
Variable callbackEffect : Callback -> value -> value -> State -> State.
Variable props : Props.
Variable changeHandler : FieldEvent -> value -> list value * value.
Variable validateHandler : option value -> bool -> value -> value -> value.

(** X6.  Registration opens the gate of the field handlers.  After a
    registration that goes through, a focus event of that field emits the
    [focused] patch for its path, with the focus callback, and nothing
    else happens. *)
Theorem registerField_then_focus registration args f :
  let registeredPath := fieldPathOf (pristineFieldProps registration) in
  let registered :=
    beforeRegister (fieldOptions registration)
                   (pristineFieldProps registration) (fields (state f)) in
  let f' := snd (registerField setStateThrows validateHandler registration f) in
  truthy (path registeredPath (fields (state f)))
  && negb (allowMultiple (fieldOptions registration)) = false ->
  truthy registered = true ->
  setStateThrows (state f)
    (fieldsUpdate (assocPath registeredPath registered (fields (state f))))
  = None ->
  fieldPathOf (fieldProps args) = registeredPath ->
  handleFieldFocus args f'
  = (Returned tt,
     {| state := state f';
        emitted := emitted f'
                   ++ [ {| fieldPath := registeredPath;
                           stateChunk := VObj [("focused", VBool true)];
                           callback :=
                             Some (FocusCallback (fieldProps args)) |} ];
        effects := effects f' |}).
Proof.
  intros registeredPath registered f' Hfree Hprops Hcommit Hsame.
  rewrite handleFieldFocus_run; [now rewrite Hsame |].
  subst f'. rewrite registerField_registered by assumption.
  cbn [snd state fields]. rewrite Hsame.
  fold registeredPath. fold registered.
  now rewrite path_assocPath.
Qed.


(** Intermediate patches applied one by one, their promises left alone:
    whatever the host does, only patch callbacks are called, and nothing is
    emitted. *)
Lemma forEach_detached_applyStatePatch fp cb chunks : forall g,
  exists s' calls,
    forEach (fun chunk =>
               detached (applyStatePatch setStateThrows callbackEffect
                           [ {| fieldPath := fp; stateChunk := chunk;
                                callback := cb |} ]))
            chunks g
    = (Returned tt,
       {| state := s'; emitted := emitted g; effects := effects g ++ calls |})
    /\ forallb isInvoked calls = true.
Proof.
  induction chunks as [| chunk chunks IH]; intros g.
  - exists (state g), []. split; [| reflexivity].
    destruct g. cbn [forEach ret state emitted effects].
    now rewrite app_nil_r.
  - cbn [forEach].
    assert (Hstep : exists s1 calls1,
               detached (applyStatePatch setStateThrows callbackEffect
                           [ {| fieldPath := fp; stateChunk := chunk;
                                callback := cb |} ]) g
               = (Returned tt,
                  {| state := s1; emitted := emitted g;
                     effects := effects g ++ calls1 |})
               /\ forallb isInvoked calls1 = true).
    { destruct (setStateThrows (state g)
                  (fieldsUpdate
                     (composeNextFields (fields (state g))
                        [ {| fieldPath := fp; stateChunk := chunk;
                             callback := cb |} ]))) as [e |] eqn:Hhost.
      - exists (state g), []. split; [| reflexivity].
        unfold detached, applyStatePatch.
        rewrite (bind_Returned getState _ g (state g) g) by reflexivity.
        erewrite bind_Thrown by (apply promiseState_throws; exact Hhost).
        destruct g. cbn [snd state emitted effects].
        now rewrite app_nil_r.
      - destruct (applyStatePatch_committed setStateThrows callbackEffect
                    _ g Hhost) as [s1 Hs1].
        exists s1, (callbackCalls
                      (composeNextFields (fields (state g))
                         [ {| fieldPath := fp; stateChunk := chunk;
                              callback := cb |} ])
                      [ {| fieldPath := fp; stateChunk := chunk;
                           callback := cb |} ]).
        split; [| apply forallb_isInvoked_callbackCalls].
        unfold detached. now rewrite Hs1. }
    destruct Hstep as [s1 [calls1 [Hstep Hcalls1]]].
    erewrite bind_Returned by exact Hstep.
    destruct (IH {| state := s1; emitted := emitted g;
                    effects := effects g ++ calls1 |})
      as [s' [calls [Hrest Hcalls]]].
    exists s', (calls1 ++ calls). split.
    + rewrite Hrest. cbn [emitted effects]. now rewrite app_assoc.
    + rewrite forallb_app, Hcalls1, Hcalls. reflexivity.
Qed.

Lemma existsb_callsOnFirstChange_invoked calls :
  forallb isInvoked calls = true -> existsb callsOnFirstChange calls = false.
Proof.
  induction calls as [| call calls IH]; [reflexivity |].
  cbn [forallb existsb]. intros H. apply andb_prop in H as [Hcall Hrest].
  rewrite (IH Hrest). now destruct call.
Qed.

(** X8.  The first change marks the form dirty, once.  On a change event
    of a registered field, [onFirstChange] is called exactly when the hook
    is set and the form was not dirty when the event arrived; and on a
    host that takes every update a form that was not dirty is dirty
    afterwards. *)
Theorem handleFieldChange_first_change args f :
  let changed :=
    handleFieldChange setStateThrows callbackEffect props changeHandler in
  truthy (path (fieldPathOf (fieldProps args)) (fields (state f))) = true ->
  existsb callsOnFirstChange (performed (changed args) f)
  = negb (dirty (state f)) && onFirstChange props
  /\ (dirty (state f) = false ->
      (forall s u, setStateThrows s u = None) ->
      dirty (state (snd (changed args f))) = true).
Proof.
  intros changed Hthere. subst changed.
  assert (Hrun :
    exists s1 calls1 patches,
      forallb isInvoked calls1 = true
      /\ handleFieldChange setStateThrows callbackEffect props changeHandler
           args f
         = (if negb (dirty (state f))
            then detached (handleFirstChange setStateThrows props args)
            else ret tt)
             {| state := s1; emitted := emitted f ++ patches;
                effects := effects f ++ calls1 |}).
  { unfold handleFieldChange.
    rewrite withRegisteredField_registered by exact Hthere.
    cbv zeta.
    rewrite (bind_Returned getState _ f (state f) f) by reflexivity.
    destruct (changeHandler args (fields (state f)))
      as [intermediatePatches fieldStatePatch].
    destruct (forEach_detached_applyStatePatch
                (fieldPathOf (fieldProps args))
                (Some (ChangeCallback (prevValue args) (nextValue args)))
                intermediatePatches f) as [s1 [calls1 [Hinter Hcalls1]]].
    exists s1, calls1.
    exists (if truthy fieldStatePatch
            then [ {| fieldPath := fieldPathOf (fieldProps args);
                      stateChunk := fieldStatePatch; callback := None |} ]
            else []).
    split; [exact Hcalls1 |].
    erewrite bind_Returned by exact Hinter.
    destruct (truthy fieldStatePatch).
    - erewrite bind_Returned by reflexivity. reflexivity.
    - erewrite bind_Returned by reflexivity.
      cbn [emitted]. now rewrite app_nil_r. }
  destruct Hrun as [s1 [calls1 [patches [Hcalls1 Hrun]]]].
  rewrite Hrun. unfold performed. rewrite Hrun.
  destruct (dirty (state f)) eqn:Hdirty; cbn [negb andb].
  - split; [| discriminate].
    unfold ret. cbn [snd effects].
    rewrite skipn_app, skipn_all, Nat.sub_diag. cbn [skipn app].
    now apply existsb_callsOnFirstChange_invoked.
  - unfold detached, handleFirstChange.
    rewrite (bind_Returned getState _ _ _ _ eq_refl).
    cbn [state fields].
    split.
    + destruct (onFirstChange props); cbn [dispatch].
      * erewrite bind_Returned by reflexivity.
        unfold promiseState, setState. cbn [state effects emitted].
        destruct (setStateThrows s1 (dirtyUpdate true));
          cbn [snd effects];
          rewrite <- app_assoc, skipn_app, skipn_all, Nat.sub_diag;
          cbn [skipn app]; rewrite existsb_app;
          rewrite (existsb_callsOnFirstChange_invoked _ Hcalls1);
          reflexivity.
      * erewrite bind_Returned by reflexivity.
        unfold promiseState, setState. cbn [state effects emitted].
        destruct (setStateThrows s1 (dirtyUpdate true));
          cbn [snd effects];
          rewrite skipn_app, skipn_all, Nat.sub_diag;
          cbn [skipn app];
          now apply existsb_callsOnFirstChange_invoked.
    + intros _ Hhost.
      destruct (onFirstChange props); cbn [dispatch];
        erewrite bind_Returned by reflexivity;
        unfold promiseState, setState; cbn [state effects emitted];
        rewrite Hhost; reflexivity.
Qed.

End HandlerProperties.

(* ===================================================================== *)
(** ** Validation and submission leave the state alone *)
(* ===================================================================== *)










Section SubmissionProperties.

Variable props : Props.
Variable validateHandler : option value -> bool -> value -> value -> value.
Variable serializeFields : value -> value.





(** X10.  A submission that settles.  On a valid form whose action returns
    a thenable, [submit] resolves with [undefined] whether the action
    fulfils or rejects, and the calls it makes are, in this order and each
    hook only if it is set: [onSubmitStart], the action, [onSubmitted] on
    fulfilment or [onSubmitFailed] on rejection, and [onSubmitEnd] -- the
    last two with what the action settled with. *)
Theorem submit_settles f act :
  let serialized := serializedOf props serializeFields (fields (state f)) in
  let pendingSubmit := act serialized (fields (state f)) in
  fst (validate props validateHandler (fun _ => true) f) = Returned true ->
  action props = Some act ->
  isThenable pendingSubmit = true ->
  fst (submit props validateHandler serializeFields f) = Returned VUndefined
  /\ performed (submit props validateHandler serializeFields) f
     = (if onSubmitStart props
        then [CalledOnSubmitStart serialized (fields (state f))] else [])
       ++ [CalledAction serialized (fields (state f))]
       ++ settledCalls props serialized (fields (state f)) pendingSubmit.
Proof.
  intros serialized pendingSubmit Hvalidated Hact Hthen.
  pose proof (validate_run props validateHandler (fun _ => true) f) as Hrun.
  cbv zeta in Hrun.
  rewrite Hrun in Hvalidated. cbn [fst] in Hvalidated.
  injection Hvalidated as Hvalid. rewrite Hvalid in Hrun.
  cbn [negb andb] in Hrun. rewrite app_nil_r in Hrun.
  assert (Hsub : exists f',
             submit props validateHandler serializeFields f
             = (Returned VUndefined, f')
             /\ effects f'
                = effects f
                  ++ (if onSubmitStart props
                      then [CalledOnSubmitStart serialized (fields (state f))]
                      else [])
                  ++ [CalledAction serialized (fields (state f))]
                  ++ settledCalls props serialized (fields (state f))
                                  pendingSubmit).
  { unfold submit. rewrite Hact.
    erewrite bind_Returned by exact Hrun. cbn [negb].
    unfold bind at 1, getState. cbn [state fields].
    unfold bind at 1, serialize, bind at 1, getState, ret.
    cbn [state fields].
    fold (serializedOf props serializeFields (fields (state f))).
    fold serialized. fold pendingSubmit.
    destruct pendingSubmit as [v | res | res]; [discriminate | |];
      cbn [settledCalls];
      destruct (onSubmitStart props), (onSubmitted props),
        (onSubmitFailed props), (onSubmitEnd props);
      cbn [dispatch]; unfold bind, record, ret, invariant;
      cbn [isThenable state emitted effects app];
      eexists; (split; [reflexivity |]); cbn [effects];
      rewrite <- ?app_assoc; reflexivity. }
  destruct Hsub as [f' [Hsub Heff]].
  split; [now rewrite Hsub |].
  apply performed_app. now rewrite Hsub.
Qed.

(** X11.  Nothing to validate is valid.  When no leaf of the tree matches
    (an empty form, say), [validate] resolves with [true] and leaves the
    form as it was: no patch is emitted and [onInvalid] is not called. *)
Theorem validate_nothing_to_validate predicate f :
  fieldsToValidate predicate f = [] ->
  validate props validateHandler predicate f = (Returned true, f).
Proof.
  intros Hnone.
  pose proof (validate_run props validateHandler predicate f) as Hrun.
  cbv zeta in Hrun. rewrite Hnone in Hrun.
  cbn [map forallb negb andb] in Hrun. rewrite !app_nil_r in Hrun.
  rewrite Hrun. now destruct f.
Qed.

End SubmissionProperties.

(* ===================================================================== *)
(** ** Nothing is lost between the event emitter and the handlers *)
(* ===================================================================== *)









(* ===================================================================== *)
(** ** Validators compose *)
(* ===================================================================== *)

Lemma combine_identity_r a :
  combine a {| expected := true; rejectedRules := [] |} = a.
Proof.
  destruct a as [e rr]. unfold combine. cbn [expected rejectedRules].
  rewrite app_nil_r. now destruct e.
Qed.

Lemma combine_identity_l a :
  combine {| expected := true; rejectedRules := [] |} a = a.
Proof. now destruct a. Qed.

Lemma reduce_from acc results :
  reduceValidationResults acc results
  = combine acc (reduceValidationResults
                   {| expected := true; rejectedRules := [] |} results).
Proof.
  unfold reduceValidationResults. revert acc.
  induction results as [| r rs IH]; intros acc; cbn [fold_left].
  - now rewrite combine_identity_r.
  - rewrite (IH (combine acc r)), (IH (combine _ r)).
    rewrite combine_identity_l. apply combine_assoc.
Qed.

(** X13.  Validators compose.  The single result of two lists of
    validators run one after the other is the combination of the single
    results of each list; and a validator that returns an array of results
    counts as one validator per result. *)
Theorem mapToSingleResult_composes validators validators' args :
  mapToSingleResult (validators ++ validators') args
  = combine (mapToSingleResult validators args)
            (mapToSingleResult validators' args)
  /\ forall results,
       mapToSingleResult [fun _ => Several results] args
       = mapToSingleResult (map (fun result _ => Single result) results) args.
Proof.
  split.
  - unfold mapToSingleResult. rewrite !mapToSingleResult_fold.
    rewrite flat_map_app. unfold reduceValidationResults at 1.
    rewrite fold_left_app.
    fold (reduceValidationResults {| expected := true; rejectedRules := [] |}
            (flat_map (fun validator : TValidatorFunc =>
                         validatorResultArr (validator args)) validators)).
    apply reduce_from.
  - intros results. unfold mapToSingleResult.
    rewrite !mapToSingleResult_fold. f_equal.
    cbn [flat_map validatorResultArr]. rewrite app_nil_r.
    induction results as [| r rs IH]; [reflexivity |].
    cbn [map flat_map validatorResultArr app]. now rewrite <- IH.
Qed.

(* ===================================================================== *)
(** ** What validateField resolves with is what the tree will hold *)
(* ===================================================================== *)

Lemma get_mergeDeepLeft k l r :
  get k (mergeDeepLeft l r) =
  if has k l then
    if has k r then
      if isObject (get k l) && isObject (get k r)
      then mergeDeepLeft (get k l) (get k r)
      else get k l
    else get k l
  else get k r.
Proof. unfold mergeDeepLeft. apply get_mergeDeepWithKey. Qed.

(** Merging [c] over [r] from the left and merging [c] into [r] from the
    right hold the same data. *)
Lemma mergeDeep_dual q : forall c r,
  path q (mergeDeepLeft c r) = path q (mergeDeepRight r c)
  \/ (isObject (path q (mergeDeepLeft c r)) = true
      /\ isObject (path q (mergeDeepRight r c)) = true).
Proof.
  induction q as [| k q IH]; intros c r.
  - right. split; apply mergeDeepWithKey_isObject.
  - rewrite !path_cons, get_mergeDeepRight, get_mergeDeepLeft.
    destruct (has k c) eqn:Hc; destruct (has k r) eqn:Hr.
    + rewrite (andb_comm (isObject (get k r))).
      destruct (isObject (get k c) && isObject (get k r)).
      * apply IH.
      * now left.
    + now left.
    + now left.
    + left. now rewrite (get_absent k c Hc), (get_absent k r Hr).
Qed.

Lemma sameData_merge_update c r :
  sameData (mergeDeepLeft c r)
           (mergeDeepRight r (mergeDeepLeft c emptyObj)).
Proof.
  intros q. destruct q as [| k q].
  - right. split; apply mergeDeepWithKey_isObject.
  - assert (Hsame : path (k :: q) (mergeDeepRight r (mergeDeepLeft c emptyObj))
                    = path (k :: q) (mergeDeepRight r c)).
    { rewrite !path_cons, !get_mergeDeepRight.
      now rewrite has_mergeDeepLeft_empty, get_mergeDeepLeft_empty. }
    rewrite Hsame. apply mergeDeep_dual.
Qed.

Section ReadBack.

Variable validateHandler : option value -> bool -> value -> value -> value.

(** X14.  Read your own write.  For a registered field whose record is an
    object carrying its own path, and a form with no patch pending: the
    record [validateField({ fieldProps })] resolves with holds the same
    data as the record the tree holds at the field's path once the patch it
    emitted is applied. *)
Theorem validateField_read_your_own_write explicit f :
  let fp := fieldPathOf explicit in
  let validated :=
    validateField validateHandler (validateFieldOf explicit) f in
  hasPath fp (fields (state f)) = true ->
  isObject (path fp (fields (state f))) = true ->
  fieldPathOf (path fp (fields (state f))) = fp ->
  emitted f = [] ->
  exists result,
    fst validated = Returned result
    /\ sameData result
         (path fp (composeNextFields (fields (state f))
                     (emitted (snd validated)))).
Proof.
  intros fp validated Hfp Hrecord Hown Hnone.
  subst validated. rewrite validateField_run. cbn [fst snd emitted].
  eexists. split; [reflexivity |].
  rewrite Hnone. cbn [app].
  unfold validationPatch, validatedField, recordToValidate.
  fold fp. rewrite (isObject_truthy _ Hrecord), Hown.
  change [mkPatch fp
            (validateHandler None false (path fp (fields (state f)))
                             (fields (state f))) None]
    with ([] ++ mkPatch fp
                  (validateHandler None false (path fp (fields (state f)))
                                   (fields (state f))) None :: []).
  rewrite composeNextFields_at_patch; [| exact Hfp | constructor].
  rewrite Hrecord. apply sameData_merge_update.
Qed.

End ReadBack.

(* ===================================================================== *)
(** ** The further properties on the sample form *)
(* ===================================================================== *)






(** Witness of X4: registering [group.c] twice. *)
Lemma registerField_twice_witness :
  exists message,
    registerField Sample.accepts Sample.requiredRule Demo.registerC
      (snd (registerField Sample.accepts Sample.requiredRule
                          Demo.registerC Sample.form))
    = (Thrown (InvariantViolation message),
       snd (registerField Sample.accepts Sample.requiredRule
                          Demo.registerC Sample.form)).
Proof.
  apply (registerField_twice Sample.accepts Sample.requiredRule
           Demo.registerC Demo.registerC Sample.form); reflexivity.
Defined.


(** Witness of X6: a focus event of [group.c] once it is registered. *)
Lemma registerField_then_focus_witness :
  let f' := snd (registerField Sample.accepts Sample.requiredRule
                               Demo.registerC Sample.form) in
  handleFieldFocus Demo.eventOfC f'
  = (Returned tt,
     {| state := state f';
        emitted := emitted f'
                   ++ [ {| fieldPath := ["group"; "c"];
                           stateChunk := VObj [("focused", VBool true)];
                           callback := Some (FocusCallback Demo.fieldC) |} ];
        effects := effects f' |}).
Proof.
  apply (registerField_then_focus Sample.accepts Sample.requiredRule
           Demo.registerC Demo.eventOfC Sample.form); reflexivity.
Defined.


(** Witness of X8: the first change of [a] on the sample form. *)
Lemma handleFieldChange_first_change_witness :
  existsb callsOnFirstChange
    (performed (handleFieldChange Sample.accepts Sample.inert
                  (Sample.propsWith Sample.dutiful) Sample.onChange
                  Sample.eventOfA) Sample.form)
  = true
  /\ dirty (state (snd (handleFieldChange Sample.accepts Sample.inert
                          (Sample.propsWith Sample.dutiful) Sample.onChange
                          Sample.eventOfA Sample.form))) = true.
Proof.
  destruct (handleFieldChange_first_change Sample.accepts Sample.inert
              (Sample.propsWith Sample.dutiful) Sample.onChange
              Sample.eventOfA Sample.form eq_refl) as [Hcalled Hdirty].
  split; [exact Hcalled |].
  apply Hdirty; [reflexivity | intros s u; reflexivity].
Defined.

(** Witness of X10: the valid sample form with an action that rejects. *)
Lemma submit_settles_witness :
  fst (submit (Sample.propsWith Demo.failing) Sample.requiredRule
              Sample.serializeValues Sample.validForm)
  = Returned VUndefined
  /\ performed (submit (Sample.propsWith Demo.failing) Sample.requiredRule
                       Sample.serializeValues) Sample.validForm
     = let serialized := VObj [("a", VStr "x"); ("b", VStr "filled")] in
       let fields := fields (state Sample.validForm) in
       [CalledOnSubmitStart serialized fields]
       ++ [CalledAction serialized fields]
       ++ [CalledOnSubmitFailed serialized fields (VStr "503");
           CalledOnSubmitEnd serialized fields (VStr "503")].
Proof.
  apply (submit_settles (Sample.propsWith Demo.failing) Sample.requiredRule
           Sample.serializeValues Sample.validForm Demo.failing);
    reflexivity.
Defined.

(** Witness of X11: a form with no field. *)
Lemma validate_nothing_to_validate_witness :
  validate (Sample.propsWith Sample.dutiful) Sample.requiredRule
           (fun _ => true) Demo.emptyForm
  = (Returned true, Demo.emptyForm).
Proof.
  apply (validate_nothing_to_validate (Sample.propsWith Sample.dutiful)
           Sample.requiredRule (fun _ => true) Demo.emptyForm).
  reflexivity.
Defined.


(** The patches of the witness do come in two batches. *)
Example spread_patches_in_two_batches :
  applyStatePatchCalls 3 Demo.spreadPatches
  = [ApplyStatePatch [Sample.touchA; Sample.blurB];
     ApplyStatePatch [Sample.focusA]].
Proof. reflexivity. Qed.

(** Witness of X14: validating [b] on the sample form. *)
Lemma validateField_read_your_own_write_witness :
  let validated :=
    validateField Sample.requiredRule (validateFieldOf Sample.fieldB)
                  Sample.form in
  exists result,
    fst validated = Returned result
    /\ sameData result
         (path ["b"] (composeNextFields Sample.tree
                        (emitted (snd validated)))).
Proof.
  apply (validateField_read_your_own_write Sample.requiredRule
           Sample.fieldB Sample.form); reflexivity.
Defined.
